(** * SkillLead.AI: local persistence, analysis versioning, stream decoder

    A shallow embedding of the core of the repository:
    - [lib/openai.ts]: [handleStreamResponse], [getApiKey], [setApiKey],
      [clearApiKey];
    - [lib/db.ts]: the Dexie tables, [exportAllData], [importData];
    - [lib/stores.ts]: the settings store used by the credential code;
    - [pages/AnalysisPage.tsx]: the part of [startAnalysis] that writes the
      analysis record.

    JavaScript strings are modelled as Rocq strings, one character per code
    unit (code units below 256).  [new Date()] is a timestamp argument. *)

From Stdlib Require Import ZArith Lia Ascii String List Sorted.
From stdpp Require Import base option list strings pretty gmap fin_maps.

Set Warnings "-register-all".
Local Open Scope string_scope.

(** ** JavaScript string primitives used by the sources *)

Module Js.

Definition LF : ascii := ascii_of_nat 10.
Definition DQUOTE : ascii := ascii_of_nat 34.
Definition BACKSLASH : ascii := ascii_of_nat 92.

(** White space and line terminators removed by [String.prototype.trim]
    (the ones below code unit 256). *)
Definition is_space (c : ascii) : bool :=
  match nat_of_ascii c with
  | 9 | 10 | 11 | 12 | 13 | 32 | 160 => true
  | _ => false
  end.

Fixpoint all_space (s : string) : bool :=
  match s with
  | EmptyString => true
  | String c s' => is_space c && all_space s'
  end.

(** [line.trim() !== ''] *)
Definition trim_nonempty (s : string) : bool := negb (all_space s).

(** [s.split(sep)] for a one-character separator. *)
Fixpoint split (sep : ascii) (s : string) : list string :=
  match s with
  | EmptyString => [EmptyString]
  | String c s' =>
      if Ascii.eqb c sep then EmptyString :: split sep s'
      else match split sep s' with
           | [] => [String c EmptyString]
           | l :: ls => String c l :: ls
           end
  end.

(** [s.startsWith(p)] *)
Definition startsWith (p s : string) : bool := String.prefix p s.

(** [s.slice(n)] for [0 <= n] *)
Fixpoint slice (n : nat) (s : string) : string :=
  match n, s with
  | 0, _ => s
  | S n', String _ s' => slice n' s'
  | S _, EmptyString => EmptyString
  end.

(** A JavaScript string is truthy when it is not empty. *)
Definition truthy_string (s : string) : bool :=
  match s with EmptyString => false | String _ _ => true end.

(** Text with every line followed by a line feed, as a provider writes
    its frames. *)
Fixpoint unlines (ls : list string) : string :=
  match ls with
  | [] => EmptyString
  | l :: ls' => l +:+ String LF (unlines ls')
  end.

Fixpoint has_char (c : ascii) (s : string) : bool :=
  match s with
  | EmptyString => false
  | String d s' => Ascii.eqb d c || has_char c s'
  end.

Definition quoted (s : string) : string :=
  String DQUOTE (s +:+ String DQUOTE EmptyString).

End Js.

(** ** JSON values, property access and coercions *)

Module Json.

(** The values [JSON.parse] builds.  A number is an integer here; the
    texts of the numbers that are written with an exponent (from [1e21]
    on) are outside the model. *)
Inductive json : Type :=
| JNull
| JBool (b : bool)
| JNum (z : Z)
| JStr (s : string)
| JArr (elems : list json)
| JObj (fields : list (string * json)).

(** The value of an own property of an object built by [JSON.parse]: on
    duplicate names the last one wins. *)
Fixpoint field (name : string) (fields : list (string * json)) : option json :=
  match fields with
  | [] => None
  | (k, v) :: rest =>
      match field name rest with
      | Some w => Some w
      | None => if String.eqb k name then Some v else None
      end
  end.

(** [v.name] for a value [v] that is neither [null] nor [undefined], and a
    name that is no built-in property ([choices], [delta], [content]).
    [None] is [undefined]. *)
Definition get (name : string) (v : json) : option json :=
  match v with
  | JObj fs => field name fs
  | _ => None
  end.

(** [v[0]] for a value [v] that is neither [null] nor [undefined]. *)
Definition get0 (v : json) : option json :=
  match v with
  | JObj fs => field "0" fs
  | JArr (x :: _) => Some x
  | JStr (String c _) => Some (JStr (String c EmptyString))
  | _ => None
  end.

(** [x?.name] where [x] may be [undefined] ([None]) or [null]. *)
Definition opt_get (name : string) (x : option json) : option json :=
  match x with
  | None | Some JNull => None
  | Some v => get name v
  end.

(** ToBoolean, for [x || ''] and [if (x)]. *)
Definition truthy (x : option json) : bool :=
  match x with
  | None | Some JNull | Some (JBool false) => false
  | Some (JNum z) => negb (Z.eqb z 0)
  | Some (JStr s) => Js.truthy_string s
  | Some _ => true
  end.

(** [x || d] *)
Definition or_json (x : option json) (d : json) : json :=
  match x with
  | Some v => if truthy x then v else d
  | None => d
  end.

Fixpoint join (sep : string) (ss : list string) : string :=
  match ss with
  | [] => EmptyString
  | [s] => s
  | s :: ss' => s +:+ sep +:+ join sep ss'
  end.

(** ToString, as applied by [fullContent += content].  [None] is the
    [TypeError] thrown for an object with an own property [toString]: a
    value built by [JSON.parse] is never a function, so the conversion
    finds no method to call.  An object without it inherits the method that
    gives [[object Object]]; an array joins the texts of its elements and
    throws when one of them does. *)
Fixpoint toString (v : json) : option string :=
  match v with
  | JNull => Some "null"
  | JBool true => Some "true"
  | JBool false => Some "false"
  | JNum z => Some (pretty z)
  | JStr s => Some s
  | JArr l =>
      join "," <$>
        (fix texts (l : list json) : option (list string) :=
           match l with
           | [] => Some []
           | e :: l' =>
               match (match e with JNull => Some EmptyString | _ => toString e end), texts l' with
               | Some t, Some ts => Some (t :: ts)
               | _, _ => None
               end
           end) l
  | JObj fs =>
      match field "toString" fs with
      | Some _ => None
      | None => Some "[object Object]"
      end
  end.

End Json.

(** ** A parser for the JSON fragment of the provider's frames

    [JSON.parse] is a parameter of the decoder below.  This parser is the
    instance used to evaluate the decoder on concrete frames: objects,
    arrays, strings with the one-character escapes, integers of at most
    fifteen digits and the three literals.  It rejects every text that is
    not JSON, and the JSON texts outside this fragment, which [JSON.parse]
    accepts: [\u] escapes, fractions, exponents and longer integers.  No
    general statement below depends on it. *)

Module JsonParser.
Import Json.

Definition is_ws (c : ascii) : bool :=
match nat_of_ascii c with
| 9 | 10 | 13 | 32 => true
| _ => false
end.

Fixpoint skip_ws (l : list ascii) : list ascii :=
match l with
| c :: l' => if is_ws c then skip_ws l' else l
| [] => []
end.

Definition digit (c : ascii) : option Z :=
let n := nat_of_ascii c in
if (48 <=? n)%nat && (n <=? 57)%nat then Some (Z.of_nat (n - 48)) else None.

Definition unescape (c : ascii) : option ascii :=
if Ascii.eqb c Js.DQUOTE then Some Js.DQUOTE
else if Ascii.eqb c Js.BACKSLASH then Some Js.BACKSLASH
else match c with
     | "/"%char => Some "/"%char
     | "b"%char => Some (ascii_of_nat 8)
     | "f"%char => Some (ascii_of_nat 12)
     | "n"%char => Some (ascii_of_nat 10)
     | "r"%char => Some (ascii_of_nat 13)
     | "t"%char => Some (ascii_of_nat 9)
     | _ => None
     end.

(** The characters after an opening quote, up to the closing one. *)
Fixpoint string_body (l : list ascii) : option (string * list ascii) :=
match l with
| [] => None
| c :: l' =>
    if Ascii.eqb c Js.DQUOTE then Some (EmptyString, l')
    else if Ascii.eqb c Js.BACKSLASH then
      match l' with
      | e :: l'' =>
          match unescape e, string_body l'' with
          | Some d, Some (s, r) => Some (String d s, r)
          | _, _ => None
          end
      | [] => None
      end
    else if (nat_of_ascii c <? 32)%nat then None
    else match string_body l' with
         | Some (s, r) => Some (String c s, r)
         | None => None
         end
end.

Fixpoint digits (l : list ascii) (acc : Z) (n : nat) : Z * nat * list ascii :=
match l with
| c :: l' =>
    match digit c with
    | Some d => digits l' (10 * acc + d)%Z (S n)
    | None => (acc, n, l)
    end
| [] => (acc, n, [])
end.

(** [0] or a non-zero digit followed by digits; no fraction, no exponent. *)
Definition natural (l : list ascii) : option (Z * list ascii) :=
match l with
| c :: l' =>
    match digit c with
    | Some d =>
        let '(z, n, r) := digits l' d 1 in
        let ok_next :=
          match r with
          | "."%char :: _ | "e"%char :: _ | "E"%char :: _ => false
          | _ => true
          end in
        if ((Z.eqb d 0 && negb (n =? 1)%nat) || (15 <? n)%nat || negb ok_next)%bool
        then None else Some (z, r)
    | None => None
    end
| [] => None
end.

Fixpoint value (fuel : nat) (l : list ascii) {struct fuel} : option (json * list ascii) :=
match fuel with
| 0 => None
| S fuel' =>
    match skip_ws l with
    | "n"%char :: "u"%char :: "l"%char :: "l"%char :: r => Some (JNull, r)
    | "t"%char :: "r"%char :: "u"%char :: "e"%char :: r => Some (JBool true, r)
    | "f"%char :: "a"%char :: "l"%char :: "s"%char :: "e"%char :: r => Some (JBool false, r)
    | "["%char :: r =>
        match skip_ws r with
        | "]"%char :: r' => Some (JArr [], r')
        | _ =>
            match elements fuel' r with
            | Some (vs, r') => Some (JArr vs, r')
            | None => None
            end
        end
    | "{"%char :: r =>
        match skip_ws r with
        | "}"%char :: r' => Some (JObj [], r')
        | _ =>
            match members fuel' r with
            | Some (fs, r') => Some (JObj fs, r')
            | None => None
            end
        end
    | "-"%char :: r =>
        match natural r with
        | Some (z, r') => Some (JNum (- z), r')
        | None => None
        end
    | c :: r =>
        if Ascii.eqb c Js.DQUOTE then
          match string_body r with
          | Some (s, r') => Some (JStr s, r')
          | None => None
          end
        else match natural (c :: r) with
             | Some (z, r') => Some (JNum z, r')
             | None => None
             end
    | [] => None
    end
end
with elements (fuel : nat) (l : list ascii) {struct fuel} : option (list json * list ascii) :=
match fuel with
| 0 => None
| S fuel' =>
    match value fuel' l with
    | Some (v, r) =>
        match skip_ws r with
        | ","%char :: r' =>
            match elements fuel' r' with
            | Some (vs, r'') => Some (v :: vs, r'')
            | None => None
            end
        | "]"%char :: r' => Some ([v], r')
        | _ => None
        end
    | None => None
    end
end
with members (fuel : nat) (l : list ascii) {struct fuel} : option (list (string * json) * list ascii) :=
match fuel with
| 0 => None
| S fuel' =>
    match skip_ws l with
    | c :: r =>
        if Ascii.eqb c Js.DQUOTE then
          match string_body r with
          | Some (k, r1) =>
              match skip_ws r1 with
              | ":"%char :: r2 =>
                  match value fuel' r2 with
                  | Some (v, r3) =>
                      match skip_ws r3 with
                      | ","%char :: r4 =>
                          match members fuel' r4 with
                          | Some (fs, r5) => Some ((k, v) :: fs, r5)
                          | None => None
                          end
                      | "}"%char :: r4 => Some ([(k, v)], r4)
                      | _ => None
                      end
                  | None => None
                  end
              | _ => None
              end
          | None => None
          end
        else None
    | [] => None
    end
end.

(** [JSON.parse(text)]: [None] when it throws a [SyntaxError]. *)
Definition parse (text : string) : option json :=
let l := list_ascii_of_string text in
match value (S (List.length l)) l with
| Some (v, r) => match skip_ws r with [] => Some v | _ => None end
| None => None
end.

End JsonParser.

(** ** The stream decoder ([handleStreamResponse], lib/openai.ts) *)

Module Stream.
Import Json.

(** What the decoder holds while it runs: the accumulator [fullContent] and
    the arguments of the calls made to the consumer callback [onStream], in
    order. *)
Record state : Type := mkState {
  fullContent : string;
  calls : list string
}.

Definition initial : state := mkState EmptyString [].

Section Decoder.

(** [JSON.parse]; [None] stands for a thrown [SyntaxError]. *)
Variable JSON_parse : string -> option json.

(** [parsed.choices[0]?.delta?.content || ''].  [None] stands for the
    [TypeError] thrown when [parsed] or [parsed.choices] is [null] or
    [undefined]. *)
Definition content_of (parsed : json) : option json :=
match parsed with
| JNull => None
| _ =>
    match get "choices" parsed with
    | None | Some JNull => None
    | Some choices =>
        let content := opt_get "content" (opt_get "delta" (get0 choices)) in
        match content with
        | Some v => if truthy content then Some v else Some (JStr EmptyString)
        | None => Some (JStr EmptyString)
        end
    end
end.

(** The body of [for (const line of lines)]. *)
Definition process_line (line : string) (st : state) : state :=
if Js.startsWith "data: " line then
  let data := Js.slice 6 line in
  if String.eqb data "[DONE]" then st
  else
    match JSON_parse data with
    | Some parsed =>
        match content_of parsed with
        | Some content =>
            if truthy (Some content) then
              match toString content with
              | Some text =>
                  let fc := fullContent st +:+ text in
                  mkState fc (calls st ++ [fc])%list
              | None => st
              end
            else st
        | None => st
        end
    | None => st
    end
else st.

(** [chunk.split('\n').filter(line => line.trim() !== '')] *)
Definition lines_of (chunk : string) : list string :=
List.filter Js.trim_nonempty (Js.split Js.LF chunk).

(** The [for] loop over the lines of one read. *)
Definition run_lines (lines : list string) (st : state) : state :=
fold_left (fun s line => process_line line s) lines st.

(** One turn of the [while (true)] loop for a read that is not [done];
    [chunk] is the text [decoder.decode(value)]. *)
Definition process_chunk (chunk : string) (st : state) : state :=
run_lines (lines_of chunk) st.

(** The [while (true)] loop over the reads that come before [done]. *)
Definition run_chunks (chunks : list string) (st : state) : state :=
fold_left (fun s chunk => process_chunk chunk s) chunks st.

(** The decoder run on the reads of a stream that ends: the text of each
    read, in order, then [done]. *)
Definition handleStreamResponse (chunks : list string) : state :=
run_chunks chunks initial.

(** The text contributed by a line that is a successfully parsed
    [data: ] frame whose content is appended without a throw; [None] for
    every other line. *)
Definition frame_fragment (line : string) : option string :=
if Js.startsWith "data: " line then
  if String.eqb (Js.slice 6 line) "[DONE]" then None
  else
    match JSON_parse (Js.slice 6 line) with
    | Some parsed =>
        match content_of parsed with
        | Some content => if truthy (Some content) then toString content else Some EmptyString
        | None => None
        end
    | None => None
    end
else None.

(** The concatenation, in order, of the fragments of the frames among
    [lines]. *)
Fixpoint fragments (lines : list string) : string :=
match lines with
| [] => EmptyString
| l :: ls =>
    match frame_fragment l with
    | Some f => f +:+ fragments ls
    | None => fragments ls
    end
end.

Definition newline_free (s : string) : Prop := Js.has_char Js.LF s = false.

End Decoder.

(** A provider frame carrying the content fragment [c] (free of quotes and
    backslashes). *)
Definition delta_frame (c : string) : string :=
"data: {" +:+ Js.quoted "choices" +:+ ":[{" +:+ Js.quoted "delta" +:+ ":{"
  +:+ Js.quoted "content" +:+ ":" +:+ Js.quoted c +:+ "}}]}".

Definition done_frame : string := "data: [DONE]".

End Stream.

(** ** The record store (lib/db.ts) *)

Module Db.
Import Json.

Inductive Role : Type := student | professional.
Inductive ProfileStatus : Type := draft | confirmed.
Inductive AnalysisStatus : Type := needs_clarification | analyzing | complete.
Inductive MessageRole : Type := user | assistant.
Inductive KeyStored : Type := session | encrypted_local | none.
Inductive Theme : Type := light | dark | system.

(** The row types.  The primary key [id?: number] of every interface is
    kept apart from the other fields: a stored row is the value at its key,
    a row handed to [add] or read from a backup comes with its optional id.
    Nested structures that no operation looks into are JSON values. *)

Record LocalUser : Type := mkLocalUser {
  user_name : string;
  user_role : Role;
  user_createdAt : nat;
  user_updatedAt : nat;
  isGuest : bool;
  passphraseProtected : bool
}.

Record StudentProfile : Type := mkStudentProfile {
  student_userId : nat;
  student_details : json;
  student_status : ProfileStatus;
  student_updatedAt : nat
}.

Record ProfessionalProfile : Type := mkProfessionalProfile {
  professional_userId : nat;
  professional_details : json;
  professional_status : ProfileStatus;
  professional_updatedAt : nat
}.

(** The fields of an analysis that [startAnalysis] copies from the value
    [JSON.parse] gave it hold whatever that value holds: they are JSON
    values, whatever the interface declares. *)
Record CareerAnalysis : Type := mkCareerAnalysis {
  userId : nat;
  status : AnalysisStatus;
  clarifications : json;
  interestsConfirmed : json;
  plans : option json;
  planADeepDive : option json;
  summary : option json;
  roadmap : option json;
  latest : bool;
  createdAt : nat;
  updatedAt : nat;
  version : Z
}.

Record ChatThread : Type := mkChatThread {
  thread_userId : nat;
  title : string;
  thread_createdAt : nat;
  contextRefs : list string
}.

Record ChatMessage : Type := mkChatMessage {
  threadId : nat;
  message_role : MessageRole;
  content : string;
  message_createdAt : nat;
  tokens : option nat;
  annotations : option json
}.

Record AppSettings : Type := mkAppSettings {
  openaiKeyStored : KeyStored;
  reduceMotion : bool;
  theme : Theme;
  locale : string;
  settings_updatedAt : nat
}.

(** A Dexie table with the schema [++id, ...]: the rows by primary key and
    the key generator of the object store. *)
Record Table (A : Type) : Type := mkTable {
  rows : gmap nat A;
  keygen : nat
}.
Arguments mkTable {A} _ _.
Arguments rows {A} _.
Arguments keygen {A} _.

Definition empty_table {A : Type} : Table A := mkTable ∅ 1.

(** [table.add(row)]: [None] is the rejection with a [ConstraintError] when
    the key is taken.  The result carries the key of the new row. *)
Definition add {A : Type} (row : option nat * A) (t : Table A) : option (nat * Table A) :=
let k := match row.1 with Some k => k | None => keygen t end in
match rows t !! k with
| Some _ => None
| None => Some (k, mkTable (<[k := row.2]> (rows t)) (Nat.max (keygen t) (S k)))
end.

(** [table.bulkAdd(rows)], rejected as soon as one row is. *)
Fixpoint bulkAdd {A : Type} (l : list (option nat * A)) (t : Table A) : option (Table A) :=
match l with
| [] => Some t
| row :: l' =>
    match add row t with
    | Some (_, t') => bulkAdd l' t'
    | None => None
    end
end.

(** [table.clear()] *)
Definition clear {A : Type} (t : Table A) : Table A := mkTable ∅ (keygen t).

(** [array.sort(compare)]: the stable sort of the language, for a
    comparator that orders by a numeric key.  The element [x] goes before
    [y] when [compare(x, y) <= 0] and [x] came first. *)
Fixpoint insert {A : Type} (compare : A -> A -> Z) (x : A) (l : list A) : list A :=
match l with
| [] => [x]
| y :: l' => if (compare x y <=? 0)%Z then x :: y :: l' else y :: insert compare x l'
end.

Fixpoint sort {A : Type} (compare : A -> A -> Z) (l : list A) : list A :=
match l with
| [] => []
| x :: l' => insert compare x (sort compare l')
end.

(** A stored row with its primary key, as a query returns it. *)
Definition Row (A : Type) : Type := nat * A.

(** The rows of a table in the order of the primary key, the order in which
    [toArray()] and an index walk over equal index values give them. *)
Definition rows_by_key {A : Type} (t : Table A) : list (Row A) :=
sort (fun a b : Row A => Z.of_nat a.1 - Z.of_nat b.1)%Z (map_to_list (rows t)).

(** [table.toArray()]: every row with its key, in the order of the keys. *)
Definition toArray {A : Type} (t : Table A) : list (option nat * A) :=
(fun kr : nat * A => (Some kr.1, kr.2)) <$> rows_by_key t.

(** The value of a row field as an index or a criterion compares it.  The
    keys of IndexedDB are numbers, strings, dates, binary data and arrays
    of keys: a boolean is not a key. *)
Inductive Value : Type :=
| number (n : nat)
| boolean (b : bool).

(** [indexedDB.cmp(a, b)]; [None] is the [DataError] thrown when an
    argument is not a valid key. *)
Definition cmp (a b : Value) : option comparison :=
match a, b with
| number x, number y => Some (Nat.compare x y)
| _, _ => None
end.

(** The [equals] of Dexie's [Table.where(criteria)]:
    [try { return idb.cmp(a, b) === 0 } catch (e) { return false }]. *)
Definition equals (a b : Value) : bool :=
match cmp a b with
| Some Eq => true
| _ => false
end.

(** [table.where({ a: v, b: w })] on a table that indexes [a] and has no
    compound index on [a] and [b]: Dexie walks the index [a] at the key
    [v] and keeps the rows with [equals(w, row.b)].  The row [r] is in the
    collection. *)
Definition where_both {A : Type} (a : A -> Value) (v : Value) (b : A -> Value) (w : Value)
    (r : A) : bool :=
equals (a r) v && equals w (b r).

(** [collection.modify(changes)] for the collection of the rows that meet
    [criteria]: [changes] applied to each of them. *)
Definition where_modify {A : Type} (criteria : A -> bool) (changes : A -> A) (t : Table A) : Table A :=
mkTable ((fun r => if criteria r then changes r else r) <$> rows t) (keygen t).

(** [collection.first()] for the same collection: its first row in the
    order of the primary key. *)
Definition where_first {A : Type} (criteria : A -> bool) (t : Table A) : option A :=
snd <$> head (List.filter (fun kr : nat * A => criteria kr.2) (rows_by_key t)).

(** [SkillLeadDB] *)
Record SkillLeadDB : Type := mkDB {
  users : Table LocalUser;
  studentProfiles : Table StudentProfile;
  professionalProfiles : Table ProfessionalProfile;
  analyses : Table CareerAnalysis;
  chatThreads : Table ChatThread;
  chatMessages : Table ChatMessage;
  settings : Table AppSettings
}.

Definition empty_db : SkillLeadDB :=
mkDB empty_table empty_table empty_table empty_table empty_table empty_table empty_table.

(** How an awaited store operation settles. *)
Inductive Outcome : Type := Fulfilled | Rejected.

(** [db.transaction('rw', tables, body)]: the writes of [body] are committed
    together when it completes and none is when it throws. *)
Definition transaction (body : SkillLeadDB -> option SkillLeadDB) (db : SkillLeadDB) : Outcome * SkillLeadDB :=
match body db with
| Some db' => (Fulfilled, db')
| None => (Rejected, db)
end.

(** The [data] object of a backup document; an absent table key is [None]. *)
Record BackupTables : Type := mkBackupTables {
  data_users : option (list (option nat * LocalUser));
  data_studentProfiles : option (list (option nat * StudentProfile));
  data_professionalProfiles : option (list (option nat * ProfessionalProfile));
  data_analyses : option (list (option nat * CareerAnalysis));
  data_chatThreads : option (list (option nat * ChatThread));
  data_chatMessages : option (list (option nat * ChatMessage));
  data_settings : option (list (option nat * AppSettings))
}.

Record Backup : Type := mkBackup {
  backup_version : nat;
  exported : nat;
  data : option BackupTables
}.

(** [exportAllData]; [now] is [new Date()]. *)
Definition exportAllData (now : nat) (db : SkillLeadDB) : Backup :=
mkBackup 1 now
  (Some (mkBackupTables
     (Some (toArray (users db)))
     (Some (toArray (studentProfiles db)))
     (Some (toArray (professionalProfiles db)))
     (Some (toArray (analyses db)))
     (Some (toArray (chatThreads db)))
     (Some (toArray (chatMessages db)))
     (Some (toArray (settings db))))).

(** [x || []] *)
Definition or_empty {A : Type} (x : option (list A)) : list A :=
match x with Some l => l | None => [] end.

(** The two [Promise.all] blocks of [importData]. *)
Definition clear_all (db : SkillLeadDB) : SkillLeadDB :=
mkDB (clear (users db)) (clear (studentProfiles db)) (clear (professionalProfiles db))
  (clear (analyses db)) (clear (chatThreads db)) (clear (chatMessages db))
  (clear (settings db)).

Definition bulkAdd_all (d : BackupTables) (db : SkillLeadDB) : option SkillLeadDB :=
t1 ← bulkAdd (or_empty (data_users d)) (users db);
t2 ← bulkAdd (or_empty (data_studentProfiles d)) (studentProfiles db);
t3 ← bulkAdd (or_empty (data_professionalProfiles d)) (professionalProfiles db);
t4 ← bulkAdd (or_empty (data_analyses d)) (analyses db);
t5 ← bulkAdd (or_empty (data_chatThreads d)) (chatThreads db);
t6 ← bulkAdd (or_empty (data_chatMessages d)) (chatMessages db);
t7 ← bulkAdd (or_empty (data_settings d)) (settings db);
Some (mkDB t1 t2 t3 t4 t5 t6 t7).

(** The body of the transaction of [importData]; reading a table key of an
    absent [data] throws. *)
Definition import_body (backupData : Backup) (db : SkillLeadDB) : option SkillLeadDB :=
let cleared := clear_all db in
match data backupData with
| Some d => bulkAdd_all d cleared
| None => None
end.

(** [importData] *)
Definition importData (backupData : Backup) (db : SkillLeadDB) : Outcome * SkillLeadDB :=
transaction (import_body backupData) db.

(** Every key in use is below the key generator, as in an object store
    that was only written through [add] and [bulkAdd]. *)
Definition keys_below {A : Type} (t : Table A) : Prop :=
forall k, is_Some (rows t !! k) -> k < keygen t.

(** The two stores hold the same rows, table by table: the same row at the
    same primary key. *)
Definition same_rows (db db' : SkillLeadDB) : Prop :=
rows (users db') = rows (users db)
/\ rows (studentProfiles db') = rows (studentProfiles db)
/\ rows (professionalProfiles db') = rows (professionalProfiles db)
/\ rows (analyses db') = rows (analyses db)
/\ rows (chatThreads db') = rows (chatThreads db)
/\ rows (chatMessages db') = rows (chatMessages db)
/\ rows (settings db') = rows (settings db).

(** The bulk insert of one of the seven tables of [d] is rejected on the
    cleared store. *)
Definition some_bulkAdd_fails (d : BackupTables) (db : SkillLeadDB) : Prop :=
bulkAdd (or_empty (data_users d)) (clear (users db)) = None
\/ bulkAdd (or_empty (data_studentProfiles d)) (clear (studentProfiles db)) = None
\/ bulkAdd (or_empty (data_professionalProfiles d)) (clear (professionalProfiles db)) = None
\/ bulkAdd (or_empty (data_analyses d)) (clear (analyses db)) = None
\/ bulkAdd (or_empty (data_chatThreads d)) (clear (chatThreads db)) = None
\/ bulkAdd (or_empty (data_chatMessages d)) (clear (chatMessages db)) = None
\/ bulkAdd (or_empty (data_settings d)) (clear (settings db)) = None.

End Db.

(** ** Recording an analysis ([startAnalysis], pages/AnalysisPage.tsx) *)

Module AnalysisPage.
Import Json Db.

(** The properties of [analysisResult] that [startAnalysis] reads.  The
    value comes from [JSON.parse] and is not checked against any type, so
    each property is an arbitrary JSON value; [None] is an absent
    property. *)
Record AnalysisResult : Type := mkResult {
  result_clarifications : option json;
  result_interestsConfirmed : option json;
  result_plans : option json;
  result_planADeepDive : option json;
  result_summary : option json;
  result_roadmap : option json
}.

(** The object literal [analysisRecord]. *)
Definition analysisRecord (currentUser_id : nat) (analysisResult : AnalysisResult) (now : nat) : CareerAnalysis :=
{| userId := currentUser_id;
   status := complete;
   clarifications := or_json (result_clarifications analysisResult) (JArr []);
   interestsConfirmed := or_json (result_interestsConfirmed analysisResult) (JBool true);
   plans := result_plans analysisResult;
   planADeepDive := result_planADeepDive analysisResult;
   summary := result_summary analysisResult;
   roadmap := result_roadmap analysisResult;
   latest := true;
   createdAt := now;
   updatedAt := now;
   version := 1 |}.

(** The criteria [{ userId, latest: true }].  The schema of [analyses]
    indexes [userId] and [latest] and has no compound index on the two, and
    the criterion value [true] is a boolean. *)
Definition criteria (uid : nat) (r : CareerAnalysis) : bool :=
where_both (fun r => number (userId r)) (number uid) (fun r => boolean (latest r)) (boolean true) r.

(** The row [r] is a row of [uid] with [latest = true]. *)
Definition is_latest_of (uid : nat) (r : CareerAnalysis) : bool :=
(userId r =? uid)%nat && Bool.eqb (latest r) true.

(** The changes [{ latest: false }]. *)
Definition unset_latest (r : CareerAnalysis) : CareerAnalysis :=
{| userId := userId r;
   status := status r;
   clarifications := clarifications r;
   interestsConfirmed := interestsConfirmed r;
   plans := plans r;
   planADeepDive := planADeepDive r;
   summary := summary r;
   roadmap := roadmap r;
   latest := false;
   createdAt := createdAt r;
   updatedAt := updatedAt r;
   version := version r |}.

Definition with_analyses (t : Table CareerAnalysis) (db : SkillLeadDB) : SkillLeadDB :=
mkDB (users db) (studentProfiles db) (professionalProfiles db) t
  (chatThreads db) (chatMessages db) (settings db).

(** [db.analyses.where({ userId, latest: true }).modify({ latest: false })] *)
Definition mark_previous (uid : nat) (db : SkillLeadDB) : SkillLeadDB :=
with_analyses (where_modify (criteria uid) unset_latest (analyses db)) db.

(** [db.analyses.add(analysisRecord)] *)
Definition add_new (record : CareerAnalysis) (db : SkillLeadDB) : option SkillLeadDB :=
match add (None, record) (analyses db) with
| Some (_, t) => Some (with_analyses t db)
| None => None
end.

(** The row a modify for [uid] leaves at the place of [r]. *)
Definition flipped (uid : nat) (r : CareerAnalysis) : CareerAnalysis :=
if criteria uid r then unset_latest r else r.

(** The store after a fulfilled operation: the rows as the modify left
    them, the new row at the next generated key. *)
Definition recorded (uid : nat) (result : AnalysisResult) (now : nat) (db : SkillLeadDB) : SkillLeadDB :=
let db1 := mark_previous uid db in
with_analyses
  (mkTable (<[keygen (analyses db1) := analysisRecord uid result now]> (rows (analyses db1)))
     (S (keygen (analyses db1))))
  db1.

(** A storage failure of one of the two awaited operations, decided by the
    environment (quota, closed database). *)
Inductive Fault : Type := no_fault | modify_fails | add_fails.

(** The two awaited store operations of [startAnalysis], each committed on
    its own, and the states committed on the way, in order.  A rejection
    throws to the [catch] block, which writes nothing. *)
Definition save_states (f : Fault) (uid : nat) (result : AnalysisResult) (now : nat)
    (db : SkillLeadDB) : Outcome * list SkillLeadDB :=
match f with
| modify_fails => (Rejected, [])
| _ =>
    let db1 := mark_previous uid db in
    match f, add_new (analysisRecord uid result now) db1 with
    | no_fault, Some db2 => (Fulfilled, [db1; db2])
    | _, _ => (Rejected, [db1])
    end
end.

(** The store after the operation: the last committed state. *)
Definition save (f : Fault) (uid : nat) (result : AnalysisResult) (now : nat)
    (db : SkillLeadDB) : Outcome * SkillLeadDB :=
let '(o, states) := save_states f uid result now db in (o, List.last states db).

(** A record-analysis operation: the user, the result, the time. *)
Definition Op : Type := nat * AnalysisResult * nat.

(** A sequence of record-analysis operations with no storage failure:
    every state committed on the way, ending with the final one; [None]
    when an operation is rejected. *)
Fixpoint history (ops : list Op) (db : SkillLeadDB) : option (list SkillLeadDB) :=
match ops with
| [] => Some []
| (uid, result, now) :: ops' =>
    match save_states no_fault uid result now db with
    | (Fulfilled, states) =>
        match history ops' (List.last states db) with
        | Some later => Some (states ++ later)%list
        | None => None
        end
    | (Rejected, _) => None
    end
end.

Fixpoint run (ops : list Op) (db : SkillLeadDB) : option SkillLeadDB :=
match ops with
| [] => Some db
| (uid, result, now) :: ops' =>
    match save no_fault uid result now db with
    | (Fulfilled, db') => run ops' db'
    | (Rejected, _) => None
    end
end.

(** The rows of [uid] with [latest = true], and their number. *)
Definition latest_rows (uid : nat) (m : gmap nat CareerAnalysis) : gmap nat CareerAnalysis :=
filter (fun kr : nat * CareerAnalysis => is_latest_of uid kr.2 = true) m.

Definition count_latest (uid : nat) (db : SkillLeadDB) : nat :=
size (latest_rows uid (rows (analyses db))).

Definition op_user (op : Op) : nat := op.1.1.

(** The operations of [uid] among [ops]. *)
Definition ops_of (uid : nat) (ops : list Op) : list Op :=
List.filter (fun op => (op_user op =? uid)%nat) ops.

(** The row was built by one of the operations [ops]. *)
Definition written_by (ops : list Op) (r : CareerAnalysis) : Prop :=
exists uid result now, (uid, result, now) ∈ ops /\ r = analysisRecord uid result now.

(** What holds of every committed state of a store that was only written
    by the record-analysis operations [ops]: every row is the record one of
    them built. *)
Definition steady (ops : list Op) (db : SkillLeadDB) : Prop :=
keys_below (analyses db)
/\ (forall k r, rows (analyses db) !! k = Some r -> written_by ops r).

(** The highest version among the rows of [uid]; 0 when there is none. *)
Definition max_version (uid : nat) (db : SkillLeadDB) : Z :=
foldr Z.max 0%Z
  ((fun kr : nat * CareerAnalysis => version kr.2) <$>
     List.filter (fun kr : nat * CareerAnalysis => (userId kr.2 =? uid)%nat)
       (map_to_list (rows (analyses db)))).

(** [getLatestAnalysis] (lib/db.ts) *)
Definition getLatestAnalysis (uid : nat) (db : SkillLeadDB) : option CareerAnalysis :=
where_first (criteria uid) (analyses db).

End AnalysisPage.

(** ** The credential holder ([getApiKey], [setApiKey], [clearApiKey]) *)

Module Credential.
Import Db.

(** [useSettingsStore] (lib/stores.ts) *)
Record SettingsState : Type := mkSettingsState {
  store_settings : option AppSettings;
  openaiKey : string;
  isKeyValid : bool;
  animationsEnabled : bool
}.

(** The browser state the credential code reads and writes. *)
Record Browser : Type := mkBrowser {
  sessionStorage : gmap string string;
  localStorage : gmap string string;
  useSettingsStore : SettingsState
}.

Definition initial_settings : SettingsState := mkSettingsState None EmptyString false true.
Definition fresh_browser : Browser := mkBrowser ∅ ∅ initial_settings.

(** A [key, value] pair accepted by [updateSetting]. *)
Inductive Setting : Type :=
| set_openaiKeyStored (v : KeyStored)
| set_reduceMotion (v : bool)
| set_theme (v : Theme)
| set_locale (v : string).

Definition updateSetting (kv : Setting) (now : nat) (s : SettingsState) : SettingsState :=
match store_settings s with
| Some current =>
    let updated :=
      match kv with
      | set_openaiKeyStored v =>
          mkAppSettings v (reduceMotion current) (theme current) (locale current) now
      | set_reduceMotion v =>
          mkAppSettings (openaiKeyStored current) v (theme current) (locale current) now
      | set_theme v =>
          mkAppSettings (openaiKeyStored current) (reduceMotion current) v (locale current) now
      | set_locale v =>
          mkAppSettings (openaiKeyStored current) (reduceMotion current) (theme current) v now
      end in
    mkSettingsState (Some updated) (openaiKey s) (isKeyValid s) (animationsEnabled s)
| None => s
end.

Definition setSettings (v : AppSettings) (s : SettingsState) : SettingsState :=
mkSettingsState (Some v) (openaiKey s) (isKeyValid s) (animationsEnabled s).

Definition setOpenaiKey (key : string) (s : SettingsState) : SettingsState :=
mkSettingsState (store_settings s) key (isKeyValid s) (animationsEnabled s).

Definition setKeyValid (valid : bool) (s : SettingsState) : SettingsState :=
mkSettingsState (store_settings s) (openaiKey s) valid (animationsEnabled s).

Definition toggleAnimations (s : SettingsState) : SettingsState :=
mkSettingsState (store_settings s) (openaiKey s) (isKeyValid s) (negb (animationsEnabled s)).

Definition with_store (f : SettingsState -> SettingsState) (b : Browser) : Browser :=
mkBrowser (sessionStorage b) (localStorage b) (f (useSettingsStore b)).

(** [storage.getItem(k)] is a lookup, [setItem] an insert, [removeItem] a
    delete. *)
Definition is_encrypted_local (s : SettingsState) : bool :=
match store_settings s with
| Some {| openaiKeyStored := encrypted_local |} => true
| _ => false
end.

(** [getApiKey]; [None] is [null]. *)
Definition getApiKey (b : Browser) : option string :=
let after_session :=
  if is_encrypted_local (useSettingsStore b) then
    match localStorage b !! "openai-api-key-encrypted" with
    | Some encryptedKey => if Js.truthy_string encryptedKey then None else None
    | None => None
    end
  else None in
match sessionStorage b !! "openai-api-key" with
| Some sessionKey => if Js.truthy_string sessionKey then Some sessionKey else after_session
| None => after_session
end.

(** [setApiKey(key, persistent)] *)
Definition setApiKey (key : string) (persistent : bool) (now : nat) (b : Browser) : Browser :=
let b1 :=
  if persistent then
    with_store (updateSetting (set_openaiKeyStored encrypted_local) now)
      (mkBrowser (sessionStorage b) (<["openai-api-key-encrypted" := key]> (localStorage b))
         (useSettingsStore b))
  else
    with_store (updateSetting (set_openaiKeyStored session) now)
      (mkBrowser (<["openai-api-key" := key]> (sessionStorage b)) (localStorage b)
         (useSettingsStore b)) in
with_store (setOpenaiKey key) b1.

(** [clearApiKey] *)
Definition clearApiKey (now : nat) (b : Browser) : Browser :=
with_store
  (fun s => updateSetting (set_openaiKeyStored none) now
              (setKeyValid false (setOpenaiKey EmptyString s)))
  (mkBrowser (delete "openai-api-key" (sessionStorage b))
     (delete "openai-api-key-encrypted" (localStorage b))
     (useSettingsStore b)).

(** What the application does with the settings store between a save and a
    clear action. *)
Inductive StoreAction : Type :=
| do_setSettings (v : AppSettings)
| do_setKeyValid (valid : bool)
| do_toggleAnimations
| do_updateSetting (kv : Setting) (now : nat).

Definition act (a : StoreAction) (b : Browser) : Browser :=
match a with
| do_setSettings v => with_store (setSettings v) b
| do_setKeyValid valid => with_store (setKeyValid valid) b
| do_toggleAnimations => with_store toggleAnimations b
| do_updateSetting kv now => with_store (updateSetting kv now) b
end.

Definition acts (l : list StoreAction) (b : Browser) : Browser :=
fold_left (fun s a => act a s) l b.

End Credential.

(** ** Sample data *)

Module Samples.
Import Json Db AnalysisPage Credential.

(** The guest user of the sign-in page. *)
Definition guest : LocalUser := mkLocalUser "Guest User" student 0 0 true false.

(** An analysis result whose interests are not confirmed. *)
Definition unconfirmed : AnalysisResult :=
mkResult (Some (JArr [])) (Some (JBool false)) None None
  (Some (JStr "Full-stack development")) None.

(** An analysis result that confirms the interests in words. *)
Definition confirmed_in_words : AnalysisResult :=
mkResult (Some (JArr [])) (Some (JStr "yes")) None None
  (Some (JStr "Full-stack development")) None.

(** A store with the guest user and one analysis of user 7, recorded at
    time 100. *)
Definition one_analysis : SkillLeadDB :=
mkDB (mkTable {[1 := guest]} 2) empty_table empty_table
  (mkTable {[1 := analysisRecord 7 unconfirmed 100]} 2)
  empty_table empty_table empty_table.

(** A backup whose [users] array holds the id 1 twice. *)
Definition duplicate_users : BackupTables :=
mkBackupTables (Some [(Some 1, guest); (Some 1, guest)]) None None None None None None.

Definition bad_backup : Backup := mkBackup 1 0 (Some duplicate_users).

(** A browser whose settings store holds a settings record. *)
Definition configured_browser : Browser :=
with_store (setSettings (mkAppSettings none false system "en" 0)) fresh_browser.

(** Two analyses of user 7, one of user 8 in between. *)
Definition three_ops : list Op := [(7, unconfirmed, 100); (8, unconfirmed, 150); (7, unconfirmed, 200)].

End Samples.

(** ** Further properties of the decoder, the store and the backup codec *)

Module More.
Import Json Stream Db AnalysisPage.

(** Every text of the list is a prefix of the one that follows it. *)
Fixpoint growing (l : list string) : bool :=
match l with
| a :: (b :: _) as rest => String.prefix a b && growing rest
| _ => true
end.

(** What the decoder loop keeps true of the accumulator and the callback
    log. *)
Definition log_ok (st : state) : Prop :=
growing (calls st) = true
/\ List.last (calls st) EmptyString = fullContent st
/\ Forall (fun c => String.prefix c (fullContent st) = true) (calls st).

(** A record-analysis operation together with the storage failure that
    meets it. *)
Definition FaultyOp : Type := Fault * Op.

(** A sequence of record-analysis operations, some of them failing: the
    operations after a rejected one still run.  Every state committed on
    the way, in order. *)
Fixpoint faulty_history (ops : list FaultyOp) (db : SkillLeadDB) : list SkillLeadDB :=
match ops with
| [] => []
| (f, (uid, result, now)) :: ops' =>
    let states := (save_states f uid result now db).2 in
    (states ++ faulty_history ops' (List.last states db))%list
end.

(** The store after such a sequence. *)
Definition faulty_run (ops : list FaultyOp) (db : SkillLeadDB) : SkillLeadDB :=
List.last (faulty_history ops db) db.

(** The operations of [uid] among [ops] that meet no failure. *)
Definition fulfilled_of (uid : nat) (ops : list FaultyOp) : list FaultyOp :=
List.filter
  (fun fo : FaultyOp =>
     match fo.1 with
     | no_fault => (op_user fo.2 =? uid)%nat
     | _ => false
     end) ops.

(** The rows of [t'] are the rows of the backup array [l]: as many, and each
    at the id the backup gives it when it gives one. *)
Definition from_backup {A : Type} (l : option (list (option nat * A))) (t' : Table A) : Prop :=
size (rows t') = length (or_empty l)
/\ (forall k r, rows t' !! k = Some r ->
      (Some k, r) ∈ or_empty l \/ (None, r) ∈ or_empty l)
/\ (forall k r, (Some k, r) ∈ or_empty l -> rows t' !! k = Some r).

(** A [data] object with no table key. *)
Definition no_tables : BackupTables := mkBackupTables None None None None None None None.

End More.

(** ** The query helpers of lib/db.ts *)

Module Queries.
Import Db.

(** [table.where(index).equals(value).toArray()] *)
Definition where_equals {A : Type} (index : A -> nat) (value : nat) (t : Table A) : list (Row A) :=
List.filter (fun kr : Row A => (index kr.2 =? value)%nat) (rows_by_key t).

(** [getUserById] *)
Definition getUserById (id : nat) (db : SkillLeadDB) : option (Row LocalUser) :=
(fun u => (id, u)) <$> rows (users db) !! id.

(** [getProfileByUserId]: the first profile of the user in the table of the
    role. *)
Definition getProfileByUserId (userId : nat) (role : Role) (db : SkillLeadDB)
    : option (Row StudentProfile + Row ProfessionalProfile) :=
match role with
| student => inl <$> head (where_equals student_userId userId (studentProfiles db))
| professional => inr <$> head (where_equals professional_userId userId (professionalProfiles db))
end.

(** [getChatThreads]: newest first. *)
Definition getChatThreads (userId : nat) (db : SkillLeadDB) : list (Row ChatThread) :=
sort (fun a b : Row ChatThread =>
        Z.of_nat (thread_createdAt b.2) - Z.of_nat (thread_createdAt a.2))%Z
  (where_equals thread_userId userId (chatThreads db)).

(** [getChatMessages]: oldest first. *)
Definition getChatMessages (thread : nat) (db : SkillLeadDB) : list (Row ChatMessage) :=
sort (fun a b : Row ChatMessage =>
        Z.of_nat (message_createdAt a.2) - Z.of_nat (message_createdAt b.2))%Z
  (where_equals threadId thread (chatMessages db)).

(** [getSettings]: the settings row updated last. *)
Definition getSettings (db : SkillLeadDB) : option (Row AppSettings) :=
head (sort (fun a b : Row AppSettings =>
              Z.of_nat (settings_updatedAt b.2) - Z.of_nat (settings_updatedAt a.2))%Z
        (rows_by_key (settings db))).

(** [a] comes before [b] in the order of the numeric key [f], and in the
    order of the primary key where [f] ties. *)
Definition before {A : Type} (f : Row A -> Z) (a b : Row A) : Prop :=
(f a < f b)%Z \/ (f a = f b /\ a.1 < b.1).

End Queries.

(** ** More JavaScript primitives *)

Module JsMore.

(** [s.trimStart()] *)
Fixpoint trimStart (s : string) : string :=
match s with
| EmptyString => EmptyString
| String c s' => if Js.is_space c then trimStart s' else s
end.

(** [s.trimEnd()] *)
Fixpoint trimEnd (s : string) : string :=
match s with
| EmptyString => EmptyString
| String c s' =>
    match trimEnd s' with
    | EmptyString => if Js.is_space c then EmptyString else String c EmptyString
    | rest => String c rest
    end
end.

(** [s.trim()] *)
Definition trim (s : string) : string := trimEnd (trimStart s).

(** A text that is empty or starts with a character that is no white
    space. *)
Definition starts_clean (s : string) : bool :=
match s with
| EmptyString => true
| String c _ => negb (Js.is_space c)
end.

(** [array.includes(x)] for an array of strings. *)
Definition includes (x : string) (l : list string) : bool :=
existsb (String.eqb x) l.

(** [array.filter((_, i) => i !== index)] *)
Fixpoint filter_index {A : Type} (index : nat) (l : list A) : list A :=
match l, index with
| [], _ => []
| _ :: l', 0 => l'
| x :: l', S i => x :: filter_index i l'
end.

End JsMore.

(** ** The stores of lib/stores.ts *)

Module Stores.
Import Db.

(** A user object as the pages hold it: the fields and the optional id. *)
Definition User : Type := option nat * LocalUser.

(** [useAuthStore] *)
Record AuthState : Type := mkAuthState {
  currentUser : option User;
  isAuthenticated : bool;
  auth_isGuest : bool
}.

Definition initial_auth : AuthState := mkAuthState None false false.

(** [setCurrentUser(user)]: [!!user] and [user?.isGuest || false]. *)
Definition setCurrentUser (newUser : option User) (s : AuthState) : AuthState :=
mkAuthState newUser
  (match newUser with Some _ => true | None => false end)
  (match newUser with Some u => isGuest u.2 | None => false end).

(** [logout()] *)
Definition logout (s : AuthState) : AuthState := mkAuthState None false false.

Inductive AuthAction : Type :=
| do_setCurrentUser (newUser : option User)
| do_logout.

Definition auth_act (a : AuthAction) (s : AuthState) : AuthState :=
match a with
| do_setCurrentUser newUser => setCurrentUser newUser s
| do_logout => logout s
end.

(** A message of the chat store. *)
Record Message : Type := mkMessage {
  message_id : string;
  role : MessageRole;
  message_content : string;
  timestamp : nat;
  message_isStreaming : option bool
}.

(** [useChatStore] *)
Record ChatState : Type := mkChatState {
  currentThreadId : option nat;
  messages : list Message;
  chat_isStreaming : bool
}.

Definition initial_chat : ChatState := mkChatState None [] false.

(** [addMessage(message)]; [id] is the text
    [msg-${Date.now()}-${Math.random()}] and [now] is [new Date()]. *)
Definition addMessage (id : string) (now : nat) (role' : MessageRole) (content' : string)
    (streaming : option bool) (s : ChatState) : ChatState :=
mkChatState (currentThreadId s)
  (messages s ++ [mkMessage id role' content' now streaming])%list
  (chat_isStreaming s).

(** [[...messages.slice(0, -1), lastMessage]] with the content of the last
    message replaced. *)
Fixpoint replace_last_content (content' : string) (l : list Message) : list Message :=
match l with
| [] => []
| [m] => [mkMessage (message_id m) (role m) content' (timestamp m) (message_isStreaming m)]
| m :: l' => m :: replace_last_content content' l'
end.

(** [updateLastMessage(content)]: nothing when there is no message. *)
Definition updateLastMessage (content' : string) (s : ChatState) : ChatState :=
mkChatState (currentThreadId s) (replace_last_content content' (messages s)) (chat_isStreaming s).

Definition setStreaming (streaming : bool) (s : ChatState) : ChatState :=
mkChatState (currentThreadId s) (messages s) streaming.

Definition clearMessages (s : ChatState) : ChatState :=
mkChatState (currentThreadId s) [] (chat_isStreaming s).

End Stores.

(** ** The sign-in and onboarding pages *)

Module Pages.
Import Json Db Stores Queries.

(** [table.update(key, changes)]: the changes applied to the row at the
    key, nothing when there is no such row. *)
Definition update {A : Type} (key : nat) (changes : A -> A) (t : Table A) : Table A :=
mkTable (alter changes key (rows t)) (keygen t).

Definition with_users (t : Table LocalUser) (db : SkillLeadDB) : SkillLeadDB :=
mkDB t (studentProfiles db) (professionalProfiles db) (analyses db)
  (chatThreads db) (chatMessages db) (settings db).

Definition with_studentProfiles (t : Table StudentProfile) (db : SkillLeadDB) : SkillLeadDB :=
mkDB (users db) t (professionalProfiles db) (analyses db)
  (chatThreads db) (chatMessages db) (settings db).

Definition with_professionalProfiles (t : Table ProfessionalProfile) (db : SkillLeadDB) : SkillLeadDB :=
mkDB (users db) (studentProfiles db) t (analyses db)
  (chatThreads db) (chatMessages db) (settings db).

(** What the pages read and write: the database and the auth store. *)
Definition App : Type := SkillLeadDB * AuthState.

(** The object literal [guestUser] of [handleGuestContinue]. *)
Definition guestUser (now : nat) : LocalUser :=
mkLocalUser "Guest User" student now now true false.

(** The object literal [newUser] of [handleCreateProfile]. *)
Definition newUser (profileName passphrase : string) (now : nat) : LocalUser :=
mkLocalUser profileName student now now false (Js.truthy_string passphrase).

(** [db.users.add(user)] followed by [setCurrentUser({ ...user, id })]; a
    rejected add goes to the [catch] block, which changes nothing. *)
Definition add_and_sign_in (u : LocalUser) (app : App) : App :=
match add (None, u) (users app.1) with
| Some (userId, t) => (with_users t app.1, setCurrentUser (Some (Some userId, u)) app.2)
| None => app
end.

(** [handleGuestContinue] (AuthPage) *)
Definition handleGuestContinue (now : nat) (app : App) : App :=
add_and_sign_in (guestUser now) app.

(** [handleCreateProfile] (AuthPage) *)
Definition handleCreateProfile (profileName passphrase : string) (now : nat) (app : App) : App :=
if Js.trim_nonempty profileName then add_and_sign_in (newUser profileName passphrase now) app
else app.

(** The changes [{ role, updatedAt: new Date() }]. *)
Definition set_role_and_time (r : Role) (now : nat) (u : LocalUser) : LocalUser :=
mkLocalUser (user_name u) r (user_createdAt u) now (isGuest u) (passphraseProtected u).

(** [{ ...currentUser, role }] *)
Definition set_role (r : Role) (u : User) : User :=
(u.1, mkLocalUser (user_name u.2) r (user_createdAt u.2) (user_updatedAt u.2)
        (isGuest u.2) (passphraseProtected u.2)).

(** [handleRoleSelection] (OnboardingRole); an update with no key is
    rejected and caught. *)
Definition handleRoleSelection (r : Role) (now : nat) (app : App) : App :=
match currentUser app.2 with
| None => app
| Some cu =>
    match cu.1 with
    | Some id =>
        (with_users (update id (set_role_and_time r now) (users app.1)) app.1,
         setCurrentUser (Some (set_role r cu)) app.2)
    | None => app
    end
end.

(** *** The profile form (OnboardingProfile) *)

Record Skill : Type := mkSkill {
  skill_name : string;
  skill_level : string
}.

Record Form : Type := mkForm {
  currentStep : nat;
  skills : list Skill;
  interests : list string;
  locations : list string;
  newSkill : Skill;
  newInterest : string;
  newLocation : string
}.

Definition blank_skill : Skill := mkSkill EmptyString "Intermediate".

Definition initial_form : Form := mkForm 0 [] [] [] blank_skill EmptyString EmptyString.

(** Both lists of steps have four entries. *)
Definition steps_length : nat := 4.

Definition addSkill (s : Form) : Form :=
if Js.trim_nonempty (skill_name (newSkill s)) then
  mkForm (currentStep s) (skills s ++ [newSkill s])%list (interests s) (locations s)
    blank_skill (newInterest s) (newLocation s)
else s.

Definition removeSkill (index : nat) (s : Form) : Form :=
mkForm (currentStep s) (JsMore.filter_index index (skills s)) (interests s) (locations s)
  (newSkill s) (newInterest s) (newLocation s).

Definition addInterest (s : Form) : Form :=
if Js.trim_nonempty (newInterest s)
   && negb (JsMore.includes (JsMore.trim (newInterest s)) (interests s)) then
  mkForm (currentStep s) (skills s) (interests s ++ [JsMore.trim (newInterest s)])%list
    (locations s) (newSkill s) EmptyString (newLocation s)
else s.

Definition removeInterest (interest : string) (s : Form) : Form :=
mkForm (currentStep s) (skills s)
  (List.filter (fun i => negb (String.eqb i interest)) (interests s))
  (locations s) (newSkill s) (newInterest s) (newLocation s).

Definition addLocation (s : Form) : Form :=
if Js.trim_nonempty (newLocation s)
   && negb (JsMore.includes (JsMore.trim (newLocation s)) (locations s)) then
  mkForm (currentStep s) (skills s) (interests s)
    (locations s ++ [JsMore.trim (newLocation s)])%list (newSkill s) (newInterest s) EmptyString
else s.

Definition removeLocation (location : string) (s : Form) : Form :=
mkForm (currentStep s) (skills s) (interests s)
  (List.filter (fun l => negb (String.eqb l location)) (locations s))
  (newSkill s) (newInterest s) (newLocation s).

(** The input handlers [setNewSkill], [setNewInterest], [setNewLocation]. *)
Definition setNewSkill (v : Skill) (s : Form) : Form :=
mkForm (currentStep s) (skills s) (interests s) (locations s) v (newInterest s) (newLocation s).

Definition setNewInterest (v : string) (s : Form) : Form :=
mkForm (currentStep s) (skills s) (interests s) (locations s) (newSkill s) v (newLocation s).

Definition setNewLocation (v : string) (s : Form) : Form :=
mkForm (currentStep s) (skills s) (interests s) (locations s) (newSkill s) (newInterest s) v.

(** [handleNext]: the next step, or on the last step the form as it is,
    saved and left ([true]). *)
Definition handleNext (s : Form) : Form * bool :=
if (currentStep s <? steps_length - 1)%nat then
  (mkForm (currentStep s + 1) (skills s) (interests s) (locations s)
     (newSkill s) (newInterest s) (newLocation s), false)
else (s, true).

Definition handlePrevious (s : Form) : Form :=
if (0 <? currentStep s)%nat then
  mkForm (currentStep s - 1) (skills s) (interests s) (locations s)
    (newSkill s) (newInterest s) (newLocation s)
else s.

(** What a user does on the form. *)
Inductive FormAction : Type :=
| type_skill (v : Skill)
| type_interest (v : string)
| type_location (v : string)
| click_addSkill
| click_removeSkill (index : nat)
| click_addInterest
| click_removeInterest (interest : string)
| click_addLocation
| click_removeLocation (location : string)
| click_next
| click_previous.

Definition form_act (a : FormAction) (s : Form) : Form :=
match a with
| type_skill v => setNewSkill v s
| type_interest v => setNewInterest v s
| type_location v => setNewLocation v s
| click_addSkill => addSkill s
| click_removeSkill index => removeSkill index s
| click_addInterest => addInterest s
| click_removeInterest interest => removeInterest interest s
| click_addLocation => addLocation s
| click_removeLocation location => removeLocation location s
| click_next => (handleNext s).1
| click_previous => handlePrevious s
end.

Definition form_acts (l : list FormAction) (s : Form) : Form :=
fold_left (fun st a => form_act a st) l s.

(** A list of entries as [addInterest] and [addLocation] keep it: no entry
    twice, every entry trimmed and not empty. *)
Definition tidy (l : list string) : Prop :=
NoDup l /\ Forall (fun e => JsMore.trim e = e /\ e <> EmptyString) l.

(** [u] was added to the users and is the signed-in user of [app']: the
    row is new, the other rows and tables are as in [app]. *)
Definition signed_in (u : LocalUser) (app app' : App) : Prop :=
exists id,
  rows (users app.1) !! id = None
  /\ getUserById id app'.1 = Some (id, u)
  /\ currentUser app'.2 = Some (Some id, u)
  /\ isAuthenticated app'.2 = true
  /\ auth_isGuest app'.2 = isGuest u
  /\ (forall k v, rows (users app.1) !! k = Some v -> rows (users app'.1) !! k = Some v)
  /\ size (rows (users app'.1)) = S (size (rows (users app.1)))
  /\ with_users (users app.1) app'.1 = app.1.

End Pages.

(** ** The provider call of lib/openai.ts *)

Module OpenAI.
Import Json Stream Credential.

Definition OPENAI_API_URL : string := "https://api.openai.com/v1/chat/completions".
Definition MODEL : string := "gpt-4-turbo-preview".

Definition CHAT_SYSTEM_PROMPT : string :=
"You are the SkillLead.AI assistant. Maintain context from this user's saved analysis.

Key guidelines:
- Clarify doubts, give concrete examples, and explain simply
- Revise plans per user requests (timeline, budget, remote, region)
- Keep responses concise, structured, and practical
- Ask precise follow-ups when uncertain
- Never fabricate user data; only use the profile, saved analysis, and chat history
- Focus on actionable advice and career guidance".

Inductive ApiRole : Type := role_system | role_user | role_assistant.

Record OpenAIMessage : Type := mkOpenAIMessage {
  api_role : ApiRole;
  api_content : string
}.

(** The request handed to [fetch]; [temperature] is the number as
    [JSON.stringify] writes it. *)
Record Request : Type := mkRequest {
  request_url : string;
  authorization : string;
  request_model : string;
  request_messages : list OpenAIMessage;
  request_stream : bool;
  temperature : string;
  max_tokens : nat
}.

(** What the code reads of a response: [ok], the texts of the reads of
    [body] ([None] when [body] is [null]) and the value of [json()]
    ([None] when it rejects). *)
Record Response : Type := mkResponse {
  ok : bool;
  body : option (list string);
  json_body : option json
}.

(** How [fetch] settles. *)
Inductive Fetched : Type :=
| network_error
| responded (r : Response).

(** How a call settles: the returned value with the calls made to
    [onStream], an [Error] with its message, or whatever else was thrown
    (a [TypeError], the rejection of [fetch] or of [json()]). *)
Inductive Completion : Type :=
| returned (value : json) (calls : list string)
| threw (message : string)
| threw_other.

Definition key_not_found : string :=
"OpenAI API key not found. Please configure your API key in Settings.".

Definition request_of (apiKey : string) (messages : list OpenAIMessage) (stream : bool) : Request :=
mkRequest OPENAI_API_URL ("Bearer " +:+ apiKey) MODEL messages stream "0.7"
  (if stream then 2000 else 4000).

Section Calls.
Variable JSON_parse : string -> option json.
Variable fetch : Request -> Fetched.

(** [callOpenAI] *)
Definition callOpenAI (b : Browser) (messages : list OpenAIMessage) (stream : bool) : Completion :=
match getApiKey b with
| None => threw key_not_found
| Some apiKey =>
    if negb (Js.truthy_string apiKey) then threw key_not_found
    else
      match fetch (request_of apiKey messages stream) with
      | network_error => threw_other
      | responded response =>
          if negb (ok response) then
            let error :=
              match json_body response with
              | Some e => e
              | None => JObj [("error", JObj [("message", JStr "Unknown error")])]
              end in
            match error with
            | JNull => threw_other
            | _ =>
                let message := opt_get "message" (get "error" error) in
                match toString (or_json message (JStr "Request failed")) with
                | Some text => threw ("OpenAI API error: " +:+ text)
                | None => threw_other
                end
            end
          else
            match stream, body response with
            | true, Some chunks =>
                let st := handleStreamResponse JSON_parse chunks in
                returned (JStr (fullContent st)) (calls st)
            | _, _ =>
                match json_body response with
                | None => threw_other
                | Some JNull => threw_other
                | Some data =>
                    match get "choices" data with
                    | None | Some JNull => threw_other
                    | Some choices =>
                        let content := opt_get "content" (opt_get "message" (get0 choices)) in
                        match content with
                        | Some v =>
                            if truthy content then returned v [] else returned (JStr EmptyString) []
                        | None => returned (JStr EmptyString) []
                        end
                    end
                end
            end
      end
end.

(** [chatWithAssistant]; [profile_text] and [analysis_text] are the texts
    [JSON.stringify(context.profile, null, 2)] and, when there is an
    analysis, [JSON.stringify(context.analysis, null, 2)]. *)
Definition chatWithAssistant (b : Browser) (message profile_text : string)
    (analysis_text : option string) (chatHistory : list OpenAIMessage) : Completion :=
callOpenAI b
  ([mkOpenAIMessage role_system CHAT_SYSTEM_PROMPT;
    mkOpenAIMessage role_system
      ("User's profile: " +:+ profile_text
       +:+ match analysis_text with
           | Some a => String Js.LF ("User's career analysis: " +:+ a)
           | None => EmptyString
           end)]
   ++ chatHistory ++ [mkOpenAIMessage role_user message])%list
  true.

End Calls.
End OpenAI.

(** ** The chat page and the settings page *)

Module ChatPage.
Import Json Db Stores Credential OpenAI.

Definition apology : string :=
"I apologize, but I encountered an error. Please check your API key configuration and try again.".

(** The ids and times the two [addMessage] calls of one exchange get. *)
Record Stamps : Type := mkStamps {
  user_id : string;
  user_time : nat;
  reply_id : string;
  reply_time : nat
}.

Definition api_role_of (r : MessageRole) : ApiRole :=
match r with
| user => role_user
| assistant => role_assistant
end.

Section Exchange.
Variable JSON_parse : string -> option json.
Variable fetch : Request -> Fetched.

(** [handleSendMessage]; [s] is the chat store, which the page was rendered
    with. *)
Definition handleSendMessage (b : Browser) (stamps : Stamps) (profile_text : string)
    (analysis_text : option string) (inputMessage : string) (s : ChatState) : ChatState :=
if negb (Js.trim_nonempty inputMessage) || chat_isStreaming s then s
else if negb (isKeyValid (useSettingsStore b)) then s
else
  let userMessage := JsMore.trim inputMessage in
  let s1 := addMessage (user_id stamps) (user_time stamps) user userMessage None s in
  let s2 := addMessage (reply_id stamps) (reply_time stamps) assistant EmptyString (Some true) s1 in
  let s3 := setStreaming true s2 in
  let chatHistory :=
    List.map (fun m => mkOpenAIMessage (api_role_of (role m)) (message_content m)) (messages s) in
  let s4 :=
    match chatWithAssistant JSON_parse fetch b userMessage profile_text analysis_text chatHistory with
    | returned _ streamed => fold_left (fun st c => updateLastMessage c st) streamed s3
    | threw _ | threw_other => updateLastMessage apology s3
    end in
  setStreaming false s4.

End Exchange.

(** [handleSaveApiKey] (SettingsPage); [storageType] is the chosen way of
    storing. *)
Definition handleSaveApiKey (tempApiKey : string) (storageType : KeyStored) (now : nat)
    (b : Browser) : Browser :=
if negb (Js.trim_nonempty tempApiKey) then b
else setApiKey tempApiKey
       (match storageType with encrypted_local => true | _ => false end) now b.

End ChatPage.

(** ** Saving the profile form and running an analysis *)

Module Saving.
Import Json Db Stores Queries Pages AnalysisPage.

(** [useProfileStore] *)
Record ProfileState : Type := mkProfileState {
  profile : option (StudentProfile + ProfessionalProfile);
  profileType : option Role;
  isLoading : bool;
  hasUnsavedChanges : bool
}.

Definition initial_profile : ProfileState := mkProfileState None None false false.

(** [setProfile(profile, type)] *)
Definition setProfile (p : StudentProfile + ProfessionalProfile) (type : Role)
    (s : ProfileState) : ProfileState :=
mkProfileState (Some p) (Some type) (isLoading s) false.

(** The values [form.getValues()] gives; [None] is a value that is not
    there. *)
Record FormValues : Type := mkFormValues {
  education : option json;
  workAuthorization : option string;
  company : option string;
  form_role : option string;
  yearsExperience : option Z;
  desiredRoles : option json
}.

Definition or_text (x : option string) : string :=
match x with Some s => s | None => EmptyString end.

Definition or_zero (x : option Z) : Z :=
match x with Some z => z | None => 0%Z end.

Definition skill_json (s : Skill) : json :=
JObj [("name", JStr (skill_name s)); ("level", JStr (skill_level s))].

(** The [preferences] both profiles start with. *)
Definition default_preferences : json :=
JObj [("timeline", JStr "6-months"); ("budget", JStr "budget-friendly");
      ("remote", JBool true); ("relocation", JBool false);
      ("learningStyle", JStr "self-paced")].

(** The object literal [studentProfile] of [saveProfile]. *)
Definition studentProfile (userId : nat) (values : FormValues) (f : Form) (now : nat) : StudentProfile :=
mkStudentProfile userId
  (JObj [("education", or_json (education values) (JArr []));
         ("projects", JArr []);
         ("internships", JArr []);
         ("skills", JArr (List.map skill_json (skills f)));
         ("interests", JArr (List.map JStr (interests f)));
         ("preferredLocations", JArr (List.map JStr (locations f)));
         ("workAuthorization", JStr (or_text (workAuthorization values)));
         ("preferences", default_preferences)])
  draft now.

(** The object literal [professionalProfile] of [saveProfile]. *)
Definition professionalProfile (userId : nat) (values : FormValues) (f : Form) (now : nat)
    : ProfessionalProfile :=
mkProfessionalProfile userId
  (JObj [("company", JStr (or_text (company values)));
         ("role", JStr (or_text (form_role values)));
         ("yearsExperience", JNum (or_zero (yearsExperience values)));
         ("domains", JArr []);
         ("projects", JArr []);
         ("stack", JArr []);
         ("certifications", JArr []);
         ("skills", JArr (List.map skill_json (skills f)));
         ("desiredRoles", or_json (desiredRoles values) (JArr []));
         ("salaryRange", JObj [("min", JNum 0); ("max", JNum 0); ("currency", JStr "USD")]);
         ("preferredLocations", JArr (List.map JStr (locations f)));
         ("preferences", default_preferences)])
  draft now.

(** The profile of the user is updated when the table has one, the first
    one by id, and added when it has none; [None] is a rejected add. *)
Definition upsert {A : Type} (index : A -> nat) (userId : nat) (p : A) (t : Table A)
    : option (Table A) :=
match head (where_equals index userId t) with
| Some existingProfile => Some (update existingProfile.1 (fun _ => p) t)
| None =>
    match add (None, p) t with
    | Some (_, t') => Some t'
    | None => None
    end
end.

(** [saveProfile] (OnboardingProfile): the database and the profile store
    after it.  A user with no id, or the id 0, saves nothing. *)
Definition saveProfile (values : FormValues) (f : Form) (now : nat) (auth : AuthState)
    (st : SkillLeadDB * ProfileState) : SkillLeadDB * ProfileState :=
match currentUser auth with
| Some (Some (S n), u) =>
    let userId := S n in
    match user_role u with
    | student =>
        let p := studentProfile userId values f now in
        match upsert student_userId userId p (studentProfiles st.1) with
        | Some t => (with_studentProfiles t st.1, setProfile (inl p) student st.2)
        | None => st
        end
    | professional =>
        let p := professionalProfile userId values f now in
        match upsert professional_userId userId p (professionalProfiles st.1) with
        | Some t => (with_professionalProfiles t st.1, setProfile (inr p) professional st.2)
        | None => st
        end
    end
| _ => st
end.

(** The table holds at most one profile for every user. *)
Definition one_profile_per_user {A : Type} (index : A -> nat) (t : Table A) : Prop :=
forall k k' p p',
  rows t !! k = Some p -> rows t !! k' = Some p' -> index p = index p' -> k = k'.

(** What [upsert] leaves of [t] in [t']: the profile [p] of the user at the
    key [k], and every other row as it was. *)
Definition upserted {A : Type} (index : A -> nat) (p : A) (k : nat) (t t' : Table A) : Prop :=
rows t' !! k = Some p
/\ head (where_equals index (index p) t') = Some (k, p)
/\ (forall k', k' <> k -> rows t' !! k' = rows t !! k')
/\ (forall q, rows t !! k = Some q -> index q = index p).

End Saving.

Module Analysing.
Import Json Db Stores AnalysisPage Saving.

Definition strings (l : list string) : json := JArr (List.map JStr l).

(** [mockAnalysisData] (lib/openai.ts), the fields the page reads. *)
Definition mockAnalysisData : AnalysisResult :=
mkResult (Some (JArr [])) (Some (JBool true))
  (Some (JObj
     [("A", JObj
         [("title", JStr "Full-Stack Developer");
          ("rationale", JStr "Perfect blend of your technical skills and learning preferences");
          ("fitScore", JNum 95);
          ("roles", strings ["Frontend Developer"; "Backend Developer"; "Full-Stack Engineer"]);
          ("industries", strings ["Technology"; "Fintech"; "E-commerce"]);
          ("riskFactors", strings ["High competition"; "Rapid technology changes"]);
          ("mitigations", strings ["Continuous learning"; "Building strong portfolio"])]);
      ("B", JObj
         [("title", JStr "Data Analyst");
          ("rationale", JStr "Leverages analytical skills with moderate learning curve")]);
      ("C", JObj
         [("title", JStr "Product Manager");
          ("rationale", JStr "Combines technical background with business strategy")])]))
  (Some (JObj
     [("impact", JStr "High demand role with excellent growth potential");
      ("scope", JStr "End-to-end web application development");
      ("futureDemand", JStr "Growing 22% through 2030");
      ("marketOutlook", JStr "Excellent opportunities in tech hubs and remote");
      ("geoNotes", JStr "Strong demand in SF, NYC, Austin, and remote positions");
      ("competencies", JObj
         [("core", strings ["React"; "Node.js"; "Database Design"; "API Development"]);
          ("supporting", strings ["DevOps"; "Testing"; "UI/UX Principles"]);
          ("certifications", strings ["AWS Developer"; "React Certification"])]);
      ("toolsStack", strings ["React"; "Node.js"; "PostgreSQL"; "Docker"; "AWS"]);
      ("portfolio", JObj
         [("suggestedProjects",
           strings ["E-commerce platform with payment integration";
                    "Social media dashboard with real-time updates";
                    "Task management app with team collaboration"])]);
      ("timeline", JObj
         [("month0_3", strings ["Master React fundamentals"; "Build first full-stack project";
                                "Learn database basics"]);
          ("month3_6", strings ["Advanced React patterns"; "API design"; "Deploy to cloud"]);
          ("month6_12", strings ["System design"; "Performance optimization";
                                 "Team collaboration tools"])]);
      ("risks", strings ["Technology changes rapidly";
                         "High competition for entry-level roles"])]))
  (Some (JStr "Full-stack development offers excellent career prospects with your background."))
  (Some (JObj
     [("skillsToLearn", JArr
         [JObj [("name", JStr "React"); ("level", JStr "Advanced")];
          JObj [("name", JStr "Node.js"); ("level", JStr "Intermediate")];
          JObj [("name", JStr "PostgreSQL"); ("level", JStr "Intermediate")]]);
      ("coursesAndResources", JArr
         [JObj [("name", JStr "React Complete Guide"); ("provider", JStr "Udemy");
                ("type", JStr "Course"); ("reason", JStr "Comprehensive React training")];
          JObj [("name", JStr "Node.js Masterclass"); ("provider", JStr "FreeCodeCamp");
                ("type", JStr "Free Course"); ("reason", JStr "Backend development skills")]]);
      ("communitiesAndEvents", strings ["React Meetups"; "Developer Twitter"; "Stack Overflow"]);
      ("interviewPrepTopics", strings ["System Design"; "Data Structures"; "React Patterns"]);
      ("nextActions", strings ["Set up development environment"; "Start first project";
                               "Join developer community"])])).

(** The properties [startAnalysis] reads of the value [JSON.parse] gave;
    [None] is the [TypeError] thrown when the value is [null].  A value
    that is no object has none of the properties. *)
Definition result_of (v : json) : option AnalysisResult :=
match v with
| JNull => None
| _ =>
    Some (mkResult (get "clarifications" v) (get "interestsConfirmed" v) (get "plans" v)
            (get "planADeepDive" v) (get "summary" v) (get "roadmap" v))
end.

(** [startAnalysis] (AnalysisPage): the database and the [analysis] of the
    analysis store after it.  [generated] is the value
    [generateCareerAnalysis] resolves to, [None] when it throws; [f] is the
    storage failure that meets the save. *)
Definition startAnalysis (ps : ProfileState) (auth : AuthState) (useDemoMode isKeyValid : bool)
    (generated : option json) (f : Fault) (now : nat)
    (st : SkillLeadDB * option CareerAnalysis) : SkillLeadDB * option CareerAnalysis :=
match profile ps, currentUser auth, profileType ps with
| Some _, Some (Some (S n), _), Some _ =>
    let analysisResult :=
      if useDemoMode || negb isKeyValid then Some mockAnalysisData
      else generated ≫= result_of in
    match analysisResult with
    | Some result =>
        match save f (S n) result now st.1 with
        | (Fulfilled, db') => (db', Some (analysisRecord (S n) result now))
        | (Rejected, db') => (db', st.2)
        end
    | None => st
    end
| _, _, _ => st
end.

End Analysing.

(** ** More sample data *)

Module MoreSamples.
Import Json Db Stores Pages Saving Analysing AnalysisPage.

(** A backup of two users, one with the id 5 and one without an id. *)
Definition two_users : BackupTables :=
mkBackupTables (Some [(Some 5, Samples.guest); (None, Samples.guest)])
  None None None None None None.

Definition small_backup : Backup := mkBackup 1 0 (Some two_users).

(** The guest user, signed in with the id 7. *)
Definition guest_signed_in : AuthState :=
setCurrentUser (Some (Some 7, Samples.guest)) initial_auth.

(** A form nobody has typed into. *)
Definition no_values : FormValues := mkFormValues None None None None None None.

(** The profile store after the guest has saved the empty form. *)
Definition guest_profile : ProfileState :=
(saveProfile no_values initial_form 150 guest_signed_in (Samples.one_analysis, initial_profile)).2.

End MoreSamples.

(** ** Facts about the stream decoder *)

Module StreamFacts.
Import Json Stream.

Lemma app_cons (c : ascii) (s t : string) : String c s +:+ t = String c (s +:+ t).
Proof. reflexivity. Qed.

Lemma app_empty_l (t : string) : EmptyString +:+ t = t.
Proof. reflexivity. Qed.

Lemma app_empty_r (s : string) : s +:+ EmptyString = s.
Proof. induction s as [|c s IH]; [reflexivity|]. now rewrite app_cons, IH. Qed.

Lemma app_assoc (s t u : string) : (s +:+ t) +:+ u = s +:+ (t +:+ u).
Proof.
  induction s as [|c s IH]; [reflexivity|].
  now rewrite !app_cons, IH.
Qed.

(** Splitting at the first line feed. *)
Lemma split_line (l rest : string) :
  Js.has_char Js.LF l = false ->
  Js.split Js.LF (l +:+ String Js.LF rest) = l :: Js.split Js.LF rest.
Proof.
  induction l as [|c l IH]; intros Hfree.
  - rewrite app_empty_l. cbn [Js.split]. now rewrite Ascii.eqb_refl.
  - cbn [Js.has_char] in Hfree. apply orb_false_iff in Hfree as [Hc Hl].
    rewrite app_cons. cbn [Js.split]. rewrite Hc, (IH Hl). reflexivity.
Qed.

Lemma split_unlines (ls : list string) :
  Forall newline_free ls ->
  Js.split Js.LF (Js.unlines ls) = (ls ++ [EmptyString])%list.
Proof.
  induction 1 as [|l ls Hl _ IH]; [reflexivity|].
  cbn [Js.unlines]. rewrite (split_line _ _ Hl), IH. reflexivity.
Qed.

Lemma split_unlines_app (ls : list string) (tail : string) :
  Forall newline_free ls ->
  Js.split Js.LF (Js.unlines ls +:+ tail) = (ls ++ Js.split Js.LF tail)%list.
Proof.
  induction 1 as [|l ls Hl _ IH]; [reflexivity|].
  cbn [Js.unlines]. rewrite app_assoc, app_cons, (split_line _ _ Hl), IH. reflexivity.
Qed.

Lemma split_newline_free (s : string) :
  newline_free s -> Js.split Js.LF s = [s].
Proof.
  unfold newline_free. induction s as [|c s IH]; intros H; [reflexivity|].
  cbn [Js.has_char] in H. apply orb_false_iff in H as [Hc Hs].
  cbn [Js.split]. rewrite Hc, (IH Hs). reflexivity.
Qed.

Section Decoder.
Variable JSON_parse : string -> option json.

Local Abbreviation process_line := (Stream.process_line JSON_parse).
Local Abbreviation process_chunk := (Stream.process_chunk JSON_parse).
Local Abbreviation run_lines := (Stream.run_lines JSON_parse).
Local Abbreviation run_chunks := (Stream.run_chunks JSON_parse).
Local Abbreviation handleStreamResponse := (Stream.handleStreamResponse JSON_parse).
Local Abbreviation frame_fragment := (Stream.frame_fragment JSON_parse).
Local Abbreviation fragments := (Stream.fragments JSON_parse).

Lemma run_lines_cons (l : string) (ls : list string) (st : state) :
  run_lines (l :: ls) st = run_lines ls (process_line l st).
Proof. reflexivity. Qed.

Lemma run_chunks_cons (c : string) (cs : list string) (st : state) :
  run_chunks (c :: cs) st = run_chunks cs (run_lines (lines_of c) st).
Proof. reflexivity. Qed.

Lemma lines_of_unlines (ls : list string) :
  Forall newline_free ls ->
  lines_of (Js.unlines ls) = List.filter Js.trim_nonempty ls.
Proof.
  intros H. unfold lines_of. rewrite (split_unlines _ H), List.filter_app.
  cbn. now rewrite List.app_nil_r.
Qed.

Lemma process_line_content (line : string) (st : state) :
  fullContent (process_line line st)
  = fullContent st +:+ default EmptyString (frame_fragment line).
Proof.
  unfold Stream.process_line, Stream.frame_fragment.
  destruct (Js.startsWith _ line); [|now rewrite app_empty_r].
  destruct (String.eqb _ _); [now rewrite app_empty_r|].
  destruct (JSON_parse _) as [parsed|]; [|now rewrite app_empty_r].
  destruct (content_of parsed) as [c|]; [|now rewrite app_empty_r].
  destruct (truthy (Some c)); [|now rewrite app_empty_r].
  destruct (toString c); cbn; [reflexivity|now rewrite app_empty_r].
Qed.

Lemma process_line_skip (line : string) (st : state) :
  frame_fragment line = None -> process_line line st = st.
Proof.
  unfold Stream.process_line, Stream.frame_fragment.
  destruct (Js.startsWith _ line); [|reflexivity].
  destruct (String.eqb _ _); [reflexivity|].
  destruct (JSON_parse _) as [parsed|]; [|reflexivity].
  destruct (content_of parsed) as [c|]; [|reflexivity].
  destruct (truthy (Some c)); [|discriminate].
  now destruct (toString c).
Qed.

Lemma run_lines_content (lines : list string) (st : state) :
  fullContent (run_lines lines st) = fullContent st +:+ fragments lines.
Proof.
  revert st. induction lines as [|l ls IH]; intros st.
  - cbn. now rewrite app_empty_r.
  - rewrite run_lines_cons, IH, process_line_content, app_assoc.
    cbn [Stream.fragments]. destruct (frame_fragment l); reflexivity.
Qed.

Lemma fragments_app (l1 l2 : list string) :
  fragments (l1 ++ l2) = fragments l1 +:+ fragments l2.
Proof.
  induction l1 as [|l l1 IH]; [reflexivity|].
  cbn [Stream.fragments app]. rewrite IH.
  destruct (frame_fragment l); [now rewrite app_assoc|reflexivity].
Qed.

Lemma run_chunks_content (chunks : list string) (st : state) :
  fullContent (run_chunks chunks st)
  = fullContent st +:+ fragments (flat_map lines_of chunks).
Proof.
  revert st. induction chunks as [|c cs IH]; intros st.
  - cbn. now rewrite app_empty_r.
  - rewrite run_chunks_cons, IH, run_lines_content. cbn [flat_map].
    now rewrite fragments_app, app_assoc.
Qed.

Lemma run_chunks_app (cs1 cs2 : list string) (st : state) :
  run_chunks (cs1 ++ cs2) st = run_chunks cs2 (run_chunks cs1 st).
Proof. apply fold_left_app. Qed.

Lemma run_lines_app (l1 l2 : list string) (st : state) :
  run_lines (l1 ++ l2) st = run_lines l2 (run_lines l1 st).
Proof. apply fold_left_app. Qed.

(** A line that leaves the state as it is can be taken out of a read. *)
Lemma drop_line (line : string) (before after pre post : list string) :
  (forall st, process_line line st = st) ->
  Forall newline_free (pre ++ line :: post) ->
  handleStreamResponse (before ++ Js.unlines (pre ++ line :: post) :: after)
  = handleStreamResponse (before ++ Js.unlines (pre ++ post) :: after).
Proof.
  intros Hskip Hfree.
  assert (Hfree' : Forall newline_free (pre ++ post)).
  { apply Forall_app in Hfree as [Hpre Hpost]. apply Forall_app. split; [done|].
    now inversion Hpost. }
  unfold Stream.handleStreamResponse.
  rewrite !run_chunks_app, !run_chunks_cons. f_equal.
  rewrite (lines_of_unlines _ Hfree), (lines_of_unlines _ Hfree'), !List.filter_app.
  rewrite !run_lines_app. cbn [List.filter].
  destruct (Js.trim_nonempty line); [|reflexivity].
  now rewrite run_lines_cons, Hskip.
Qed.

Lemma lines_of_partial (pre : list string) (part : string) :
  Forall newline_free pre -> newline_free part ->
  lines_of (Js.unlines pre +:+ part) = List.filter Js.trim_nonempty (pre ++ [part]).
Proof.
  intros Hpre Hpart. unfold lines_of.
  now rewrite (split_unlines_app _ _ Hpre), (split_newline_free _ Hpart).
Qed.

Lemma run_lines_skip_one (line : string) (st : state) :
  (forall s, process_line line s = s) ->
  run_lines (List.filter Js.trim_nonempty [line]) st = st.
Proof.
  intros Hskip. cbn [List.filter]. destruct (Js.trim_nonempty line); [|reflexivity].
  now rewrite run_lines_cons, Hskip.
Qed.

Lemma sentinel_fragment : frame_fragment done_frame = None.
Proof. reflexivity. Qed.

Lemma invalid_fragment (payload : string) :
  JSON_parse payload = None -> frame_fragment ("data: " +:+ payload) = None.
Proof.
  intros Hbad. unfold Stream.frame_fragment.
  change (Js.startsWith "data: " ("data: " +:+ payload)) with (String.prefix EmptyString payload).
  replace (String.prefix EmptyString payload) with true by now destruct payload.
  change (Js.slice 6 ("data: " +:+ payload)) with payload.
  cbv iota. rewrite Hbad. now destruct (String.eqb payload "[DONE]").
Qed.

(** A frame is a line that [filter] keeps. *)
Lemma frame_is_kept (line text : string) :
  frame_fragment line = Some text -> Js.trim_nonempty line = true.
Proof.
  unfold Stream.frame_fragment, Js.startsWith.
  destruct line as [|c line]; [discriminate|].
  cbn [String.prefix]. destruct (Ascii.ascii_dec "d" c) as [<-|]; [|discriminate].
  reflexivity.
Qed.

Lemma handle_content (chunks : list string) :
  fullContent (handleStreamResponse chunks) = fragments (flat_map lines_of chunks).
Proof. unfold Stream.handleStreamResponse. now rewrite run_chunks_content. Qed.

(** C4. For every sequence of input chunks the decoder returns the
    concatenation, in arrival order, of the content fragments of the
    successfully parsed [data: ] frames, each once; and a line
    [data: <payload>] whose payload is not valid JSON contributes nothing
    and does not stop decoding: the run with that line is the run without
    it, for the returned text and for the calls of the callback. *)
Theorem decoder_returns_parsed_fragments (chunks : list string) :
  fullContent (handleStreamResponse chunks) = fragments (flat_map lines_of chunks)
  /\ forall (before after pre post : list string) (payload : string),
       JSON_parse payload = None ->
       Forall newline_free (pre ++ ("data: " +:+ payload) :: post) ->
       frame_fragment ("data: " +:+ payload) = None
       /\ handleStreamResponse (before ++ Js.unlines (pre ++ ("data: " +:+ payload) :: post) :: after)
          = handleStreamResponse (before ++ Js.unlines (pre ++ post) :: after).
Proof.
  split.
  - apply handle_content.
  - intros before after pre post payload Hbad Hfree.
    pose proof (invalid_fragment payload Hbad) as Hnone.
    split; [exact Hnone|].
    apply drop_line; [|exact Hfree].
    intros st. now apply process_line_skip.
Qed.

(** C7, as the code has it. The sentinel frame [data: [DONE]] contributes
    nothing and does not stop the decoder: the lines and reads that come
    after it are processed as if the sentinel line were not there. *)
Theorem sentinel_is_skipped (before after pre post : list string) :
  Forall newline_free (pre ++ post) ->
  handleStreamResponse (before ++ Js.unlines (pre ++ done_frame :: post) :: after)
  = handleStreamResponse (before ++ Js.unlines (pre ++ post) :: after).
Proof.
  intros Hfree. apply drop_line.
  - intros st. apply process_line_skip, sentinel_fragment.
  - apply Forall_app in Hfree as [Hpre Hpost]. apply Forall_app. split; [done|].
    constructor; [reflexivity|done].
Qed.

(** C8, as the code has it. The decoder keeps no text from one read to the
    next: the returned text is the concatenation of what each read gives
    when decoded on its own.  A frame that is one of the lines of a read
    contributes its fragment exactly once, between what the lines before it
    and the lines after it contribute.  When a read ends in a partial line
    that is no parseable frame by itself and the next read starts with the
    rest of that line, both pieces are dropped. *)
Theorem reads_are_decoded_independently (chunks : list string) :
  fullContent (handleStreamResponse chunks)
  = fold_right (fun c acc => fullContent (handleStreamResponse [c]) +:+ acc) EmptyString chunks
  /\ (forall (before after pre post : list string) (chunk line text : string),
        Js.split Js.LF chunk = (pre ++ line :: post)%list ->
        frame_fragment line = Some text ->
        fullContent (handleStreamResponse (before ++ chunk :: after))
        = fullContent (handleStreamResponse before)
          +:+ fragments (List.filter Js.trim_nonempty pre)
          +:+ text
          +:+ fragments (List.filter Js.trim_nonempty post)
          +:+ fullContent (handleStreamResponse after))
  /\ forall (before after pre post : list string) (part1 part2 : string),
       frame_fragment part1 = None ->
       Js.startsWith "data: " part2 = false ->
       Forall newline_free (pre ++ part1 :: part2 :: post) ->
       handleStreamResponse
         (before ++ (Js.unlines pre +:+ part1) :: Js.unlines (part2 :: post) :: after)
       = handleStreamResponse (before ++ Js.unlines pre :: Js.unlines post :: after).
Proof.
  split_and!.
  - rewrite handle_content.
    induction chunks as [|c cs IH]; [reflexivity|].
    cbn [flat_map fold_right]. rewrite fragments_app, IH, handle_content.
    cbn [flat_map]. now rewrite List.app_nil_r.
  - intros before after pre post chunk line text Hsplit Hfrag.
    rewrite !handle_content, flat_map_app. cbn [flat_map].
    unfold lines_of at 2. rewrite Hsplit, List.filter_app. cbn [List.filter].
    rewrite (frame_is_kept line text Hfrag).
    rewrite !fragments_app. cbn [Stream.fragments]. rewrite Hfrag.
    now rewrite !app_assoc.
  - intros before after pre post part1 part2 Hnone Hprefix Hfree.
    apply Forall_app in Hfree as [Hpre Hrest].
    inversion Hrest as [|? ? Hp1 Hrest']; subst.
    inversion Hrest' as [|? ? Hp2 Hpost]; subst.
    unfold Stream.handleStreamResponse.
    rewrite !run_chunks_app, !run_chunks_cons. f_equal.
    rewrite (lines_of_partial _ _ Hpre Hp1), List.filter_app, run_lines_app.
    rewrite run_lines_skip_one by (intros s; now apply process_line_skip).
    rewrite (lines_of_unlines pre Hpre).
    rewrite (lines_of_unlines (part2 :: post)) by (constructor; done).
    rewrite (lines_of_unlines post Hpost).
    change (part2 :: post) with ([part2] ++ post)%list.
    rewrite List.filter_app, run_lines_app, run_lines_skip_one; [reflexivity|].
    intros s. unfold Stream.process_line. now rewrite Hprefix.
Qed.

End Decoder.

(** The reassembly example of the provider's protocol: two frames and the
    sentinel give the text and the two calls of the callback. *)
Example stream_reassembly :
  handleStreamResponse JsonParser.parse
    [Js.unlines [delta_frame "Hel"; delta_frame "lo"; done_frame]]
  = mkState "Hello" ["Hel"; "Hello"].
Proof. vm_compute. reflexivity. Qed.

(** C4 at the frames [Hel], [data: {not valid json}], [lo], [DONE]. *)
Lemma decoder_returns_parsed_fragments_witness :
  fullContent
    (handleStreamResponse JsonParser.parse
       [Js.unlines [delta_frame "Hel"; "data: {not valid json}"; delta_frame "lo"; done_frame]])
  = "Hello"
  /\ handleStreamResponse JsonParser.parse
       [Js.unlines [delta_frame "Hel"; "data: {not valid json}"; delta_frame "lo"; done_frame]]
     = handleStreamResponse JsonParser.parse
         [Js.unlines [delta_frame "Hel"; delta_frame "lo"; done_frame]].
Proof.
  destruct (decoder_returns_parsed_fragments JsonParser.parse
              [Js.unlines [delta_frame "Hel"; "data: {not valid json}"; delta_frame "lo"; done_frame]])
    as [Hret Hskip].
  split.
  - rewrite Hret. vm_compute. reflexivity.
  - destruct (Hskip [] [] [delta_frame "Hel"] [delta_frame "lo"; done_frame] "{not valid json}")
      as [_ H]; [vm_compute; reflexivity | repeat constructor | exact H].
Defined.

(** C7 fails as stated: a frame that arrives in the read after the
    sentinel is parsed, appended and delivered to the callback; the claim
    has the decoder return [Hel] after one call. *)
Lemma frame_after_sentinel_is_decoded :
  handleStreamResponse JsonParser.parse
    [Js.unlines [delta_frame "Hel"; done_frame]; Js.unlines [delta_frame "lo"]]
  = mkState "Hello" ["Hel"; "Hello"]
  /\ String.eqb
       (fullContent
          (handleStreamResponse JsonParser.parse
             [Js.unlines [delta_frame "Hel"; done_frame]; Js.unlines [delta_frame "lo"]]))
       "Hel" = false.
Proof. split; vm_compute; reflexivity. Qed.

(** C7, as the code has it, at the same input. *)
Lemma sentinel_is_skipped_witness :
  handleStreamResponse JsonParser.parse
    [Js.unlines [delta_frame "Hel"; done_frame; delta_frame "lo"]]
  = handleStreamResponse JsonParser.parse
      [Js.unlines [delta_frame "Hel"; delta_frame "lo"]].
Proof.
  apply (sentinel_is_skipped JsonParser.parse [] [] [delta_frame "Hel"] [delta_frame "lo"]).
  repeat constructor.
Defined.

(** C8 fails as stated: the frame carrying [Hel], cut after its twentieth
    character and delivered in two reads, contributes nothing, while the
    same frame in one read contributes [Hel]. *)
Lemma split_frame_is_dropped :
  let frame := delta_frame "Hel" in
  let part1 := String.substring 0 20 frame in
  let part2 := Js.slice 20 frame in
  part1 +:+ part2 = frame
  /\ handleStreamResponse JsonParser.parse [Js.unlines [frame]] = mkState "Hel" ["Hel"]
  /\ handleStreamResponse JsonParser.parse [part1; Js.unlines [part2]] = mkState EmptyString [].
Proof. repeat split; vm_compute; reflexivity. Qed.

(** C8, as the code has it, at the same cut, and at a read that holds the
    frames [A] and [B] whole. *)
Lemma reads_are_decoded_independently_witness :
  let frame := delta_frame "Hel" in
  let part1 := String.substring 0 20 frame in
  let part2 := Js.slice 20 frame in
  handleStreamResponse JsonParser.parse
    [Js.unlines [delta_frame "A"] +:+ part1; Js.unlines [part2; delta_frame "B"]]
  = handleStreamResponse JsonParser.parse
      [Js.unlines [delta_frame "A"]; Js.unlines [delta_frame "B"]]
  /\ fullContent
       (handleStreamResponse JsonParser.parse [Js.unlines [delta_frame "A"; delta_frame "B"]])
     = "AB".
Proof.
  destruct (reads_are_decoded_independently JsonParser.parse []) as (_ & Honce & Hdrop).
  split.
  - apply (Hdrop [] [] [delta_frame "A"] [delta_frame "B"]
             (String.substring 0 20 (delta_frame "Hel")) (Js.slice 20 (delta_frame "Hel"))).
    + vm_compute. reflexivity.
    + vm_compute. reflexivity.
    + repeat constructor.
  - etransitivity.
    + apply (Honce [] [] [delta_frame "A"] [EmptyString]
               (Js.unlines [delta_frame "A"; delta_frame "B"]) (delta_frame "B") "B");
        vm_compute; reflexivity.
    + vm_compute. reflexivity.
Defined.

End StreamFacts.

(** ** Facts about the order of the rows *)

Module KeyOrder.
Import Db.

Section Sorting.
Context {A : Type}.

Lemma insert_perm (compare : A -> A -> Z) (x : A) (l : list A) :
  insert compare x l ≡ₚ x :: l.
Proof.
  induction l as [|y l IH]; [reflexivity|].
  cbn. destruct (compare x y <=? 0)%Z; [reflexivity|].
  rewrite IH. apply Permutation_swap.
Qed.

Lemma sort_perm (compare : A -> A -> Z) (l : list A) : sort compare l ≡ₚ l.
Proof.
  induction l as [|x l IH]; [reflexivity|].
  cbn. now rewrite insert_perm, IH.
Qed.

Lemma insert_ext (c1 c2 : A -> A -> Z) (x : A) (l : list A) :
  (forall a b, c1 a b = c2 a b) -> insert c1 x l = insert c2 x l.
Proof.
  intros Hext. induction l as [|y l IH]; [reflexivity|].
  cbn. now rewrite Hext, IH.
Qed.

Lemma sort_ext (c1 c2 : A -> A -> Z) (l : list A) :
  (forall a b, c1 a b = c2 a b) -> sort c1 l = sort c2 l.
Proof.
  intros Hext. induction l as [|x l IH]; [reflexivity|].
  cbn. now rewrite IH, (insert_ext c1 c2 _ _ Hext).
Qed.

Lemma elem_of_sort (compare : A -> A -> Z) (l : list A) (x : A) :
  x ∈ sort compare l <-> x ∈ l.
Proof. now rewrite sort_perm. Qed.

End Sorting.

Lemma filter_sorted {A : Type} (R : A -> A -> Prop) (p : A -> bool) (l : list A) :
  StronglySorted R l -> StronglySorted R (List.filter p l).
Proof.
  induction 1 as [|x l Hl IH Hx]; [constructor|].
  cbn. destruct (p x); [|exact IH].
  constructor; [exact IH|].
  apply List.Forall_forall. intros y Hy. apply List.filter_In in Hy as [Hy _].
  rewrite List.Forall_forall in Hx. now apply Hx.
Qed.

(** The rows of a table, listed by key: each once, in the order of the
    keys. *)
Lemma rows_by_key_sorted {A : Type} (t : Table A) :
  StronglySorted (fun a b : Row A => a.1 < b.1) (rows_by_key t).
Proof.
  unfold rows_by_key.
  pose proof (NoDup_fst_map_to_list (rows t)) as Hnodup.
  induction (map_to_list (rows t)) as [|x l IH]; [constructor|].
  cbn in Hnodup. apply NoDup_cons in Hnodup as [Hx Hnodup].
  specialize (IH Hnodup). cbn [sort].
  set (by_key := (fun a b : Row A => Z.of_nat a.1 - Z.of_nat b.1)%Z) in *.
  assert (Hnot : forall y, y ∈ sort by_key l -> y.1 <> x.1).
  { intros y Hy Heq. apply elem_of_sort in Hy. apply Hx. rewrite <- Heq.
    now apply list_elem_of_fmap_2. }
  clear Hx Hnodup. induction (sort by_key l) as [|y s IHs]; [repeat constructor|].
  apply StronglySorted_inv in IH as [Hs Hy].
  cbn. unfold by_key at 1. destruct (Z.leb_spec (Z.of_nat x.1 - Z.of_nat y.1) 0) as [Hle|Hgt].
  - assert (x.1 < y.1). { specialize (Hnot y ltac:(left)). lia. }
    constructor; [now constructor|]. constructor; [done|].
    rewrite List.Forall_forall in Hy. apply List.Forall_forall. intros z Hz.
    specialize (Hy z Hz). cbn in Hy. lia.
  - constructor.
    + apply IHs; [exact Hs|]. intros z Hz. apply Hnot. now right.
    + apply List.Forall_forall. intros z Hz.
      apply list_elem_of_In, (elem_of_Permutation_proper _ _ _ (insert_perm by_key x s)),
        elem_of_cons in Hz.
      destruct Hz as [->|Hz]; [lia|].
      rewrite List.Forall_forall in Hy. now apply Hy, list_elem_of_In.
Qed.

Lemma elem_of_rows_by_key {A : Type} (t : Table A) (k : nat) (r : A) :
  (k, r) ∈ rows_by_key t <-> rows t !! k = Some r.
Proof. unfold rows_by_key. now rewrite elem_of_sort, elem_of_map_to_list. Qed.

Lemma sorted_by_key_NoDup {A : Type} (l : list (Row A)) :
  StronglySorted (fun a b : Row A => a.1 < b.1) l -> NoDup l.
Proof.
  induction 1 as [|x l Hl IH Hx]; [constructor|].
  constructor; [|exact IH]. intros Hin.
  rewrite List.Forall_forall in Hx. apply list_elem_of_In, Hx in Hin. lia.
Qed.

Lemma rows_by_key_perm {A : Type} (t : Table A) : rows_by_key t ≡ₚ map_to_list (rows t).
Proof. apply sort_perm. Qed.

Lemma rows_by_key_NoDup_keys {A : Type} (t : Table A) : NoDup (rows_by_key t).*1.
Proof. rewrite rows_by_key_perm. apply NoDup_fst_map_to_list. Qed.

Lemma list_to_map_rows_by_key {A : Type} (t : Table A) :
  list_to_map (rows_by_key t) = rows t.
Proof.
  rewrite (list_to_map_proper (rows_by_key t) (map_to_list (rows t))).
  - apply list_to_map_to_list.
  - apply rows_by_key_NoDup_keys.
  - apply rows_by_key_perm.
Qed.

(** [collection.first()] finds nothing exactly when no row meets the
    criteria. *)
Lemma where_first_None {A : Type} (criteria : A -> bool) (t : Table A) :
  where_first criteria t = None
  <-> forall k r, rows t !! k = Some r -> criteria r = false.
Proof.
  unfold where_first.
  destruct (List.filter (fun kr : nat * A => criteria kr.2) (rows_by_key t))
    as [|[k0 r0] l] eqn:Hl; cbn.
  - split; [|reflexivity]. intros _ k r Hr.
    destruct (criteria r) eqn:Hc; [|reflexivity].
    assert (Hin : In (k, r) (List.filter (fun kr : nat * A => criteria kr.2) (rows_by_key t))).
    { apply List.filter_In. split; [|exact Hc]. now apply list_elem_of_In, elem_of_rows_by_key. }
    rewrite Hl in Hin. destruct Hin.
  - split; [discriminate|]. intros Hnone.
    assert (Hin : In (k0, r0) (List.filter (fun kr : nat * A => criteria kr.2) (rows_by_key t))).
    { rewrite Hl. now left. }
    apply List.filter_In in Hin as [Hin Hc]. apply list_elem_of_In, elem_of_rows_by_key in Hin.
    cbn in Hc. rewrite (Hnone _ _ Hin) in Hc. discriminate.
Qed.

End KeyOrder.

(** ** Facts about the record store and the backup codec *)

Module DbFacts.
Import Db.

Lemma add_keyed {A : Type} (k : nat) (a : A) (t : Table A) :
  rows t !! k = None ->
  add (Some k, a) t = Some (k, mkTable (<[k := a]> (rows t)) (Nat.max (keygen t) (S k))).
Proof. intros Hfree. unfold add. cbn. now rewrite Hfree. Qed.

Lemma add_taken {A : Type} (k : nat) (a : A) (t : Table A) :
  is_Some (rows t !! k) -> add (Some k, a) t = None.
Proof. intros [b Hb]. unfold add. cbn. now rewrite Hb. Qed.

Lemma add_generated {A : Type} (a : A) (t : Table A) :
  keys_below t ->
  add (None, a) t
  = Some (keygen t, mkTable (<[keygen t := a]> (rows t)) (S (keygen t))).
Proof.
  intros Hbelow. unfold add. cbn.
  destruct (rows t !! keygen t) as [b|] eqn:Hk.
  - exfalso. specialize (Hbelow (keygen t)). rewrite Hk in Hbelow.
    specialize (Hbelow (ex_intro _ b eq_refl)). lia.
  - do 3 f_equal. lia.
Qed.

(** Rows with distinct free keys are all added, at their keys. *)
Lemma bulkAdd_keyed {A : Type} (l : list (nat * A)) (t : Table A) :
  NoDup l.*1 ->
  (forall k, k ∈ l.*1 -> rows t !! k = None) ->
  exists t', bulkAdd ((fun kr : nat * A => (Some kr.1, kr.2)) <$> l) t = Some t'
             /\ rows t' = list_to_map l ∪ rows t.
Proof.
  revert t. induction l as [|[k a] l IH]; intros t Hnodup Hfree.
  - exists t. split; [reflexivity|]. cbn. now rewrite (left_id_L ∅ (∪)).
  - cbn in Hnodup. apply NoDup_cons in Hnodup as [Hk Hnodup].
    cbn [fmap list_fmap bulkAdd fst snd].
    rewrite add_keyed by (apply Hfree; cbn; left).
    destruct (IH (mkTable (<[k := a]> (rows t)) (Nat.max (keygen t) (S k))) Hnodup)
      as (t' & Hadd & Hrows).
    { intros k' Hk'. cbn. rewrite lookup_insert_ne by (intros ->; contradiction).
      apply Hfree. cbn. now right. }
    exists t'. split; [exact Hadd|].
    rewrite Hrows. cbn.
    rewrite <- insert_union_l, <- insert_union_r; [reflexivity|].
    now apply not_elem_of_list_to_map_1.
Qed.

(** A table cleared and refilled from its own [toArray]. *)
Lemma bulkAdd_toArray {A : Type} (t : Table A) :
  exists t', bulkAdd (toArray t) (clear t) = Some t' /\ rows t' = rows t.
Proof.
  destruct (bulkAdd_keyed (rows_by_key t) (clear t)) as (t' & Hadd & Hrows).
  - apply KeyOrder.rows_by_key_NoDup_keys.
  - intros k _. apply lookup_empty.
  - exists t'. split; [exact Hadd|].
    rewrite Hrows, KeyOrder.list_to_map_rows_by_key. cbn. apply (right_id_L ∅ (∪)).
Qed.

(** C6. For every store, [importData(exportAllData())] is fulfilled and
    leaves in every table the rows the table had before the export: the
    same row at the same primary key, whatever the order of the rows. *)
Theorem import_export_round_trip (now : nat) (db : SkillLeadDB) :
  exists db', importData (exportAllData now db) db = (Fulfilled, db') /\ same_rows db db'.
Proof.
  destruct (bulkAdd_toArray (users db)) as (t1 & H1 & R1).
  destruct (bulkAdd_toArray (studentProfiles db)) as (t2 & H2 & R2).
  destruct (bulkAdd_toArray (professionalProfiles db)) as (t3 & H3 & R3).
  destruct (bulkAdd_toArray (analyses db)) as (t4 & H4 & R4).
  destruct (bulkAdd_toArray (chatThreads db)) as (t5 & H5 & R5).
  destruct (bulkAdd_toArray (chatMessages db)) as (t6 & H6 & R6).
  destruct (bulkAdd_toArray (settings db)) as (t7 & H7 & R7).
  exists (mkDB t1 t2 t3 t4 t5 t6 t7). split.
  - unfold importData, transaction, import_body, exportAllData, bulkAdd_all, clear_all.
    cbn. rewrite H1. cbn. rewrite H2. cbn. rewrite H3. cbn. rewrite H4. cbn.
    rewrite H5. cbn. rewrite H6. cbn. rewrite H7. reflexivity.
  - unfold same_rows. cbn. auto 10.
Qed.

Lemma bulkAdd_all_fails (d : BackupTables) (db : SkillLeadDB) :
  some_bulkAdd_fails d db -> bulkAdd_all d (clear_all db) = None.
Proof.
  intros Hfail. unfold bulkAdd_all, clear_all. cbn.
  destruct Hfail as [H|[H|[H|[H|[H|[H|H]]]]]];
    repeat (first [rewrite H; reflexivity
                  | match goal with
                    | |- context [bulkAdd ?l ?t] =>
                        destruct (bulkAdd l t); cbn; [|reflexivity]
                    end]).
Qed.

(** C5. If the bulk insert of any one table fails, [importData] is rejected
    and the store is the store from before the import, every table with
    its rows.  No other store is ever committed than that one or, when the
    import is fulfilled, the store with every table cleared and refilled
    from the backup: none with some tables cleared only. *)
Theorem import_is_atomic (backupData : Backup) (db : SkillLeadDB) :
  (forall d : BackupTables,
     data backupData = Some d -> some_bulkAdd_fails d db ->
     importData backupData db = (Rejected, db))
  /\ (importData backupData db = (Rejected, db)
      \/ exists d db', data backupData = Some d
                      /\ bulkAdd_all d (clear_all db) = Some db'
                      /\ importData backupData db = (Fulfilled, db')).
Proof.
  unfold importData, transaction, import_body. split.
  - intros d Hd Hfail. now rewrite Hd, (bulkAdd_all_fails d db Hfail).
  - destruct (data backupData) as [d|]; [|now left].
    destruct (bulkAdd_all d (clear_all db)) as [db'|] eqn:Hall; [|now left].
    right. now exists d, db'.
Qed.

(** C5 at a backup whose [users] array repeats an id: the second insert is
    rejected, and the store keeps its user and its analysis. *)
Lemma import_is_atomic_witness :
  importData Samples.bad_backup Samples.one_analysis = (Rejected, Samples.one_analysis).
Proof.
  destruct (import_is_atomic Samples.bad_backup Samples.one_analysis) as [Hfail _].
  apply (Hfail Samples.duplicate_users).
  - reflexivity.
  - left. vm_compute. reflexivity.
Defined.

End DbFacts.

(** ** Facts about recording an analysis *)

Module AnalysisFacts.
Import Json Db AnalysisPage.


(** [true] is no key: comparing it throws, and no row meets the
    criteria. *)
Lemma criteria_none (uid : nat) (r : CareerAnalysis) : criteria uid r = false.
Proof. unfold criteria, where_both. apply andb_false_r. Qed.

Lemma flipped_same (uid : nat) (r : CareerAnalysis) : flipped uid r = r.
Proof. unfold flipped. now rewrite criteria_none. Qed.

Lemma rows_mark_previous (uid : nat) (db : SkillLeadDB) :
  rows (analyses (mark_previous uid db)) = flipped uid <$> rows (analyses db).
Proof. reflexivity. Qed.

Lemma keygen_mark_previous (uid : nat) (db : SkillLeadDB) :
  keygen (analyses (mark_previous uid db)) = keygen (analyses db).
Proof. reflexivity. Qed.

(** The modify changes no row. *)
Lemma mark_previous_same (uid : nat) (db : SkillLeadDB) : mark_previous uid db = db.
Proof.
  destruct db as [t1 t2 t3 [m g] t5 t6 t7].
  unfold mark_previous, with_analyses, where_modify. cbn. do 2 f_equal.
  rewrite <- (map_fmap_id m) at 2. apply map_fmap_ext. intros k r _.
  apply flipped_same.
Qed.

Lemma is_latest_of_record (uid : nat) (result : AnalysisResult) (now : nat) :
  is_latest_of uid (analysisRecord uid result now) = true.
Proof. unfold is_latest_of. cbn. now rewrite Nat.eqb_refl. Qed.

Lemma is_latest_of_other (uid uid' : nat) (result : AnalysisResult) (now : nat) :
  uid' <> uid -> is_latest_of uid' (analysisRecord uid result now) = false.
Proof.
  intros Hne. unfold is_latest_of. cbn.
  destruct (Nat.eqb_spec uid uid'); [congruence|reflexivity].
Qed.

Lemma count_insert_same (uid k : nat) (r : CareerAnalysis) (m : gmap nat CareerAnalysis) :
  m !! k = None -> is_latest_of uid r = true ->
  size (latest_rows uid (<[k := r]> m)) = S (size (latest_rows uid m)).
Proof.
  intros Hfree Hr. unfold latest_rows.
  rewrite map_filter_insert_True by exact Hr.
  apply map_size_insert_None, map_lookup_filter_None. now left.
Qed.

Lemma count_insert_other (uid k : nat) (r : CareerAnalysis) (m : gmap nat CareerAnalysis) :
  m !! k = None -> is_latest_of uid r = false ->
  size (latest_rows uid (<[k := r]> m)) = size (latest_rows uid m).
Proof.
  intros Hfree Hr. unfold latest_rows.
  rewrite map_filter_insert_not'; [reflexivity| |]; cbn.
  - now rewrite Hr.
  - intros y Hy. congruence.
Qed.

Lemma keys_below_mark_previous (uid : nat) (db : SkillLeadDB) :
  keys_below (analyses db) -> keys_below (analyses (mark_previous uid db)).
Proof.
  intros Hbelow k Hk. rewrite keygen_mark_previous. apply Hbelow.
  rewrite rows_mark_previous, lookup_fmap in Hk. now apply fmap_is_Some in Hk.
Qed.

Lemma next_key_free (db : SkillLeadDB) :
  keys_below (analyses db) -> rows (analyses db) !! keygen (analyses db) = None.
Proof.
  intros Hbelow. apply eq_None_not_Some. intros Hk. apply Hbelow in Hk. lia.
Qed.

Lemma add_new_recorded (uid : nat) (result : AnalysisResult) (now : nat) (db : SkillLeadDB) :
  keys_below (analyses db) ->
  add_new (analysisRecord uid result now) (mark_previous uid db)
  = Some (recorded uid result now db).
Proof.
  intros Hbelow. unfold add_new.
  now rewrite (DbFacts.add_generated _ _ (keys_below_mark_previous uid db Hbelow)).
Qed.

(** Without a storage failure the operation is fulfilled, and commits the
    store of the modify and then the store with the new row. *)
Lemma save_states_fulfilled (uid : nat) (result : AnalysisResult) (now : nat) (db : SkillLeadDB) :
  keys_below (analyses db) ->
  save_states no_fault uid result now db
  = (Fulfilled, [mark_previous uid db; recorded uid result now db]).
Proof. intros Hbelow. unfold save_states. now rewrite add_new_recorded. Qed.

(** The add puts the record at the next key, over the rows of the
    modify. *)
Lemma rows_recorded_marked (uid : nat) (result : AnalysisResult) (now : nat) (db : SkillLeadDB) :
  rows (analyses (recorded uid result now db))
  = <[keygen (analyses db) := analysisRecord uid result now]>
      (rows (analyses (mark_previous uid db))).
Proof. reflexivity. Qed.

Lemma rows_recorded (uid : nat) (result : AnalysisResult) (now : nat) (db : SkillLeadDB) :
  rows (analyses (recorded uid result now db))
  = <[keygen (analyses db) := analysisRecord uid result now]> (rows (analyses db)).
Proof. now rewrite rows_recorded_marked, mark_previous_same. Qed.

Lemma keygen_recorded (uid : nat) (result : AnalysisResult) (now : nat) (db : SkillLeadDB) :
  keygen (analyses (recorded uid result now db)) = S (keygen (analyses db)).
Proof. reflexivity. Qed.

Lemma keys_below_recorded (uid : nat) (result : AnalysisResult) (now : nat) (db : SkillLeadDB) :
  keys_below (analyses db) -> keys_below (analyses (recorded uid result now db)).
Proof.
  intros Hbelow k Hk. rewrite rows_recorded in Hk. rewrite keygen_recorded.
  destruct (decide (k = keygen (analyses db))) as [->|Hne]; [lia|].
  rewrite lookup_insert_ne in Hk by done. apply Hbelow in Hk. lia.
Qed.

(** A fulfilled operation adds one latest row of its user and leaves the
    latest rows there were. *)
Lemma count_recorded_same (uid : nat) (result : AnalysisResult) (now : nat) (db : SkillLeadDB) :
  keys_below (analyses db) ->
  count_latest uid (recorded uid result now db) = S (count_latest uid db).
Proof.
  intros Hbelow. unfold count_latest. rewrite rows_recorded.
  apply count_insert_same; [now apply next_key_free|apply is_latest_of_record].
Qed.

Lemma count_recorded_other (uid uid' : nat) (result : AnalysisResult) (now : nat) (db : SkillLeadDB) :
  keys_below (analyses db) -> uid' <> uid ->
  count_latest uid' (recorded uid result now db) = count_latest uid' db.
Proof.
  intros Hbelow Hne. unfold count_latest. rewrite rows_recorded.
  apply count_insert_other; [now apply next_key_free|now apply is_latest_of_other].
Qed.

Lemma size_recorded (uid : nat) (result : AnalysisResult) (now : nat) (db : SkillLeadDB) :
  keys_below (analyses db) ->
  size (rows (analyses (recorded uid result now db))) = S (size (rows (analyses db))).
Proof.
  intros Hbelow. rewrite rows_recorded, map_size_insert_None; [done|].
  now apply next_key_free.
Qed.

Lemma written_by_more (ops ops' : list Op) (r : CareerAnalysis) :
  (forall op, op ∈ ops -> op ∈ ops') -> written_by ops r -> written_by ops' r.
Proof. intros Hsub (uid & result & now & Hin & Hr). exists uid, result, now. auto. Qed.

Lemma steady_more (ops ops' : list Op) (db : SkillLeadDB) :
  (forall op, op ∈ ops -> op ∈ ops') -> steady ops db -> steady ops' db.
Proof.
  intros Hsub [Hbelow Hrows]. split; [exact Hbelow|].
  intros k r Hr. eapply written_by_more; [exact Hsub|]. now apply (Hrows k).
Qed.

Lemma steady_recorded (ops : list Op) (uid : nat) (result : AnalysisResult) (now : nat)
    (db : SkillLeadDB) :
  steady ops db -> steady (ops ++ [(uid, result, now)]) (recorded uid result now db).
Proof.
  intros [Hbelow Hrows]. split; [now apply keys_below_recorded|].
  intros k r Hr. rewrite rows_recorded in Hr.
  destruct (decide (k = keygen (analyses db))) as [->|Hne].
  - rewrite lookup_insert_eq in Hr. injection Hr as <-.
    exists uid, result, now. split; [|reflexivity].
    apply elem_of_app. right. now left.
  - rewrite lookup_insert_ne in Hr by done.
    eapply written_by_more; [|now apply (Hrows k)].
    intros op Hop. apply elem_of_app. now left.
Qed.

Lemma steady_empty : steady [] empty_db.
Proof.
  split.
  - intros k [r Hr]. cbn in Hr. now rewrite lookup_empty in Hr.
  - intros k r Hr. cbn in Hr. now rewrite lookup_empty in Hr.
Qed.

Lemma count_latest_empty (uid : nat) : count_latest uid empty_db = 0.
Proof. unfold count_latest, latest_rows. cbn. now rewrite map_filter_empty, map_size_empty. Qed.

Lemma last_cons {A : Type} (a d : A) (l : list A) : List.last (a :: l) d = List.last l a.
Proof.
  revert a d. induction l as [|x l IH]; intros a d; [reflexivity|].
  change (List.last (a :: x :: l) d) with (List.last (x :: l) d).
  now rewrite !IH.
Qed.

(** A sequence of operations on a store written by the operations [past]:
    it runs to the end, every committed state holds only rows the
    operations built, the final state holds one more row for each
    operation, and every user has one more latest row for each operation
    of that user. *)
Lemma run_steady (ops past : list Op) (db : SkillLeadDB) :
  steady past db ->
  exists db' states,
    run ops db = Some db' /\ history ops db = Some states
    /\ db' = List.last states db
    /\ Forall (steady (past ++ ops)) states /\ steady (past ++ ops) db'
    /\ size (rows (analyses db')) = length ops + size (rows (analyses db))
    /\ (forall uid, count_latest uid db' = length (ops_of uid ops) + count_latest uid db).
Proof.
  revert past db. induction ops as [|[[uid result] now] ops IH]; intros past db Hsteady.
  - exists db, []. rewrite List.app_nil_r. split_and!; try done.
  - pose proof Hsteady as [Hbelow _].
    destruct (IH (past ++ [(uid, result, now)])%list (recorded uid result now db))
      as (db' & states & Hrun & Hhist & Hlast & Hall & Hs & Hsize & Hcount).
    { now apply steady_recorded. }
    rewrite <- List.app_assoc in Hall, Hs. cbn [app] in Hall, Hs.
    exists db', (mark_previous uid db :: recorded uid result now db :: states).
    cbn [run history]. unfold save.
    rewrite (save_states_fulfilled _ _ _ _ Hbelow). cbn [List.last].
    rewrite Hrun, Hhist. split_and!; try done.
    + rewrite Hlast. destruct states as [|s states']; [reflexivity|].
      now rewrite !last_cons.
    + assert (Hsub : forall op, op ∈ (past ++ [(uid, result, now)])%list
                       -> op ∈ (past ++ (uid, result, now) :: ops)%list).
      { intros op Hop. apply elem_of_app in Hop as [Hop|Hop]; apply elem_of_app.
        - now left.
        - right. apply list_elem_of_singleton in Hop as ->. now left. }
      apply List.Forall_cons.
      * rewrite mark_previous_same. eapply steady_more; [|exact Hsteady].
        intros op Hop. apply elem_of_app. now left.
      * apply List.Forall_cons; [|exact Hall].
        eapply steady_more; [exact Hsub|]. now apply steady_recorded.
    + rewrite Hsize, size_recorded by done. cbn. lia.
    + intros uid'. rewrite Hcount. unfold ops_of. cbn [List.filter op_user fst].
      destruct (Nat.eqb_spec uid uid') as [->|Hne].
      * rewrite count_recorded_same by done. cbn. lia.
      * rewrite count_recorded_other by done. reflexivity.
Qed.

(** C1, at the input where the code breaks it.  The modify of
    [startAnalysis] compares its criterion [true] as a key, which a
    boolean is not, and so matches no row: after two analyses of user 7 on
    the empty store both rows are the records as they were written, both
    with [latest = true], and the user has two latest rows.  It is so for
    every sequence of operations on the empty store: it runs to its end
    and leaves every user as many latest rows as it has operations of that
    user. *)
Theorem second_analysis_leaves_two_latest :
  (rows ∘ analyses) <$> run [(7, Samples.unconfirmed, 100); (7, Samples.unconfirmed, 200)] empty_db
  = Some {[1 := analysisRecord 7 Samples.unconfirmed 100;
           2 := analysisRecord 7 Samples.unconfirmed 200]}
  /\ latest (analysisRecord 7 Samples.unconfirmed 100) = true
  /\ latest (analysisRecord 7 Samples.unconfirmed 200) = true
  /\ count_latest 7 <$> run [(7, Samples.unconfirmed, 100); (7, Samples.unconfirmed, 200)] empty_db
     = Some 2
  /\ forall (ops : list Op) (uid : nat),
       exists db, run ops empty_db = Some db
                  /\ count_latest uid db = length (ops_of uid ops).
Proof.
  split_and!; try (vm_compute; reflexivity).
  intros ops uid.
  destruct (run_steady ops [] empty_db steady_empty)
    as (db & states & Hrun & _ & _ & _ & _ & _ & Hcount).
  exists db. split; [exact Hrun|].
  rewrite Hcount, count_latest_empty. lia.
Qed.

(** C2, as the code has it. For every sequence of record-analysis
    operations on the empty store, whatever the users and their order,
    each operation adds one row and every row has version 1: the first
    analysis of a user and every later one. *)
Theorem version_is_always_one (ops : list Op) :
  exists db,
    run ops empty_db = Some db
    /\ size (rows (analyses db)) = length ops
    /\ forall k r, rows (analyses db) !! k = Some r -> version r = 1%Z.
Proof.
  destruct (run_steady ops [] empty_db steady_empty)
    as (db & states & Hrun & _ & _ & _ & Hsteady & Hsize & _).
  exists db. split_and!; try done.
  - rewrite Hsize. cbn. rewrite map_size_empty. lia.
  - destruct Hsteady as [_ Hrows]. intros k r Hr.
    apply Hrows in Hr as (uid & result & now & _ & ->). reflexivity.
Qed.

Lemma or_json_truthy (x : option json) (d : json) :
  truthy (Some d) = true -> truthy (Some (or_json x d)) = true.
Proof.
  intros Hd. unfold or_json. destruct x as [v|]; [|exact Hd].
  destruct (truthy (Some v)) eqn:Hv; [exact Hv|exact Hd].
Qed.

(** C10, as the code has it. The record built by the record-analysis path
    has a truthy [interestsConfirmed]: [true] when the field of the result
    is absent, [false] or another falsy value, and so for every boolean;
    the value of the result itself when that is truthy.  So has every row
    of a store written by record-analysis operations, where the field is
    the one of the record an operation built. *)
Theorem stored_interests_confirmed (ops : list Op) (uid : nat) (result : AnalysisResult) (now : nat) :
  truthy (Some (interestsConfirmed (analysisRecord uid result now))) = true
  /\ (truthy (result_interestsConfirmed result) = false ->
      interestsConfirmed (analysisRecord uid result now) = JBool true)
  /\ (forall b : bool,
        result_interestsConfirmed result = Some (JBool b) ->
        interestsConfirmed (analysisRecord uid result now) = JBool true)
  /\ (forall v : json,
        result_interestsConfirmed result = Some v -> truthy (Some v) = true ->
        interestsConfirmed (analysisRecord uid result now) = v)
  /\ exists db,
       run ops empty_db = Some db
       /\ forall k r,
            rows (analyses db) !! k = Some r ->
            truthy (Some (interestsConfirmed r)) = true
            /\ exists uid' result' now',
                 (uid', result', now') ∈ ops
                 /\ interestsConfirmed r
                    = or_json (result_interestsConfirmed result') (JBool true).
Proof.
  split_and!.
  - now apply or_json_truthy.
  - cbn. unfold or_json. intros Hfalsy.
    destruct (result_interestsConfirmed result); [now rewrite Hfalsy|reflexivity].
  - intros b Hb. cbn. rewrite Hb. now destruct b.
  - intros v Hv Htruthy. cbn. rewrite Hv. unfold or_json. now rewrite Htruthy.
  - destruct (run_steady ops [] empty_db steady_empty)
      as (db & states & Hrun & _ & _ & _ & Hsteady & _ & _).
    exists db. split; [done|].
    destruct Hsteady as [_ Hrows]. intros k r Hr.
    apply Hrows in Hr as (uid' & result' & now' & Hin & ->). split.
    + now apply or_json_truthy.
    + now exists uid', result', now'.
Qed.


(** A result with [interestsConfirmed: false] is stored as confirmed. *)
Example unconfirmed_is_stored_confirmed :
  interestsConfirmed <$> (db ← run [(7, Samples.unconfirmed, 100)] empty_db;
                          rows (analyses db) !! 1)
  = Some (JBool true).
Proof. vm_compute. reflexivity. Qed.

(** C10 fails as stated: a result that confirms the interests with the
    text [yes] is stored with that text, which is not [true]. *)
Lemma confirmation_in_words_is_stored :
  interestsConfirmed <$> (db ← run [(7, Samples.confirmed_in_words, 100)] empty_db;
                          rows (analyses db) !! 1)
  = Some (JStr "yes").
Proof. vm_compute. reflexivity. Qed.

(** C2 fails as stated: the second analysis of user 7 is stored with
    version 1, not with the highest version so far plus one. *)
Lemma second_analysis_has_version_one :
  let db1 := recorded 7 Samples.unconfirmed 100 empty_db in
  let db2 := recorded 7 Samples.unconfirmed 200 db1 in
  run [(7, Samples.unconfirmed, 100); (7, Samples.unconfirmed, 200)] empty_db = Some db2
  /\ max_version 7 db1 = 1%Z
  /\ rows (analyses db2) !! 2 = Some (analysisRecord 7 Samples.unconfirmed 200)
  /\ (version (analysisRecord 7 Samples.unconfirmed 200) =? max_version 7 db1 + 1)%Z = false.
Proof. split_and!; vm_compute; reflexivity. Qed.



End AnalysisFacts.

(** ** Facts about the credential holder *)

Module CredentialFacts.
Import Db Credential.

(** [getApiKey] returns the key of the session slot when there is a
    non-empty one, and [null] in every other case. *)
Lemma getApiKey_session (b : Browser) :
  getApiKey b
  = match sessionStorage b !! "openai-api-key" with
    | Some sessionKey => if Js.truthy_string sessionKey then Some sessionKey else None
    | None => None
    end.
Proof.
  unfold getApiKey.
  assert (Hnone :
    (if is_encrypted_local (useSettingsStore b) then
       match localStorage b !! "openai-api-key-encrypted" with
       | Some encryptedKey => if Js.truthy_string encryptedKey then None else None
       | None => None
       end
     else @None string) = None).
  { destruct (is_encrypted_local _); [|reflexivity].
    destruct (localStorage b !! _) as [k|]; [|reflexivity].
    now destruct (Js.truthy_string k). }
  rewrite Hnone. reflexivity.
Qed.

Lemma act_sessionStorage (a : StoreAction) (b : Browser) :
  sessionStorage (act a b) = sessionStorage b.
Proof. now destruct a. Qed.

Lemma acts_sessionStorage (l : list StoreAction) (b : Browser) :
  sessionStorage (acts l b) = sessionStorage b.
Proof.
  revert b. induction l as [|a l IH]; intros b; [reflexivity|].
  unfold acts in *. cbn [fold_left]. now rewrite IH, act_sessionStorage.
Qed.

Lemma act_localStorage (a : StoreAction) (b : Browser) :
  localStorage (act a b) = localStorage b.
Proof. now destruct a. Qed.

Lemma acts_localStorage (l : list StoreAction) (b : Browser) :
  localStorage (acts l b) = localStorage b.
Proof.
  revert b. induction l as [|a l IH]; intros b; [reflexivity|].
  unfold acts in *. cbn [fold_left]. now rewrite IH, act_localStorage.
Qed.

Lemma setApiKey_session_slot (key : string) (now : nat) (b : Browser) :
  sessionStorage (setApiKey key false now b) = <["openai-api-key" := key]> (sessionStorage b).
Proof. reflexivity. Qed.

Lemma setApiKey_persistent_slot (key : string) (now : nat) (b : Browser) :
  sessionStorage (setApiKey key true now b) = sessionStorage b.
Proof. reflexivity. Qed.

(** C9, as the code has it. For every non-empty key: after a save to the
    session slot, and whatever is done with the settings store before a
    clear action or another save, [getApiKey] returns the key; after a
    save to the persistent slot the key is in that slot, but [getApiKey]
    does not read it back and returns what it returned before the save. *)
Theorem session_key_is_read_back (key : string) (now : nat) (b : Browser) (l : list StoreAction) :
  key <> EmptyString ->
  getApiKey (acts l (setApiKey key false now b)) = Some key
  /\ getApiKey (acts l (setApiKey key true now b)) = getApiKey b
  /\ localStorage (acts l (setApiKey key true now b)) !! "openai-api-key-encrypted" = Some key.
Proof.
  intros Hkey. split_and!.
  - rewrite getApiKey_session, acts_sessionStorage, setApiKey_session_slot, lookup_insert_eq.
    now destruct key.
  - now rewrite !getApiKey_session, acts_sessionStorage, setApiKey_persistent_slot.
  - rewrite acts_localStorage. apply lookup_insert_eq.
Qed.

(** C9 fails as stated: a key saved to the persistent slot is stored
    there, and the settings record says so, but [getApiKey] returns
    [null]; so it does for the empty key saved to the session slot. *)
Lemma persistent_key_is_not_read_back :
  localStorage (setApiKey "sk-test" true 5 Samples.configured_browser)
    !! "openai-api-key-encrypted" = Some "sk-test"
  /\ is_encrypted_local (useSettingsStore (setApiKey "sk-test" true 5 Samples.configured_browser))
     = true
  /\ getApiKey (setApiKey "sk-test" true 5 Samples.configured_browser) = None
  /\ getApiKey (setApiKey EmptyString false 5 Samples.configured_browser) = None.
Proof. split_and!; vm_compute; reflexivity. Qed.

(** C9, as the code has it, at the key [sk-test]. *)
Lemma session_key_is_read_back_witness :
  getApiKey
    (acts [do_setKeyValid true; do_toggleAnimations; do_updateSetting (set_theme dark) 9]
       (setApiKey "sk-test" false 5 Samples.configured_browser))
  = Some "sk-test"
  /\ getApiKey
       (acts [do_setKeyValid true; do_toggleAnimations; do_updateSetting (set_theme dark) 9]
          (setApiKey "sk-test" true 5 Samples.configured_browser))
     = getApiKey Samples.configured_browser
  /\ localStorage
       (acts [do_setKeyValid true; do_toggleAnimations; do_updateSetting (set_theme dark) 9]
          (setApiKey "sk-test" true 5 Samples.configured_browser))
       !! "openai-api-key-encrypted"
     = Some "sk-test".
Proof.
  apply (session_key_is_read_back "sk-test" 5 Samples.configured_browser
           [do_setKeyValid true; do_toggleAnimations; do_updateSetting (set_theme dark) 9]).
  discriminate.
Defined.

End CredentialFacts.

(** ** More facts about the stream decoder *)

Module StreamMore.
Import Json Stream More.

Lemma prefix_refl (s : string) : String.prefix s s = true.
Proof.
  induction s as [|c s IH]; [reflexivity|].
  cbn. destruct (ascii_dec c c); [exact IH|contradiction].
Qed.

Lemma prefix_app (s t : string) : String.prefix s (s +:+ t) = true.
Proof.
  induction s as [|c s IH]; [now destruct t|].
  rewrite StreamFacts.app_cons. cbn. destruct (ascii_dec c c); [exact IH|contradiction].
Qed.

Lemma prefix_trans (s t u : string) :
  String.prefix s t = true -> String.prefix t u = true -> String.prefix s u = true.
Proof.
  revert t u. induction s as [|a s IH]; intros t u Hst Htu; [now destruct u|].
  destruct t as [|b t]; [discriminate|]. destruct u as [|c u]; [discriminate|].
  cbn in *. destruct (ascii_dec a b) as [->|]; [|discriminate].
  destruct (ascii_dec b c) as [->|]; [|discriminate]. now apply (IH t u).
Qed.

Lemma growing_snoc (l : list string) (x : string) :
  growing l = true -> String.prefix (List.last l EmptyString) x = true ->
  growing (l ++ [x]) = true.
Proof.
  induction l as [|a [|b l] IH]; intros Hl Hx.
  - reflexivity.
  - cbn in *. now rewrite Hx.
  - change (growing ((a :: b :: l) ++ [x])) with (String.prefix a b && growing ((b :: l) ++ [x])).
    change (growing (a :: b :: l)) with (String.prefix a b && growing (b :: l)) in Hl.
    apply andb_true_iff in Hl as [Hab Hl]. rewrite Hab. cbn [andb].
    apply IH; [exact Hl|exact Hx].
Qed.

Lemma last_snoc {A : Type} (l : list A) (x d : A) : List.last (l ++ [x]) d = x.
Proof. induction l as [|a [|b l] IH]; [reflexivity..|exact IH]. Qed.

Section Decoder.
Variable JSON_parse : string -> option json.

Lemma log_ok_line (line : string) (st : state) :
  log_ok st -> log_ok (process_line JSON_parse line st).
Proof.
  intros (Hgrow & Hlast & Hall). unfold process_line.
  destruct (Js.startsWith _ line); [|done].
  destruct (String.eqb _ _); [done|].
  destruct (JSON_parse _) as [parsed|]; [|done].
  destruct (content_of parsed) as [c|]; [|done].
  destruct (truthy (Some c)); [|done].
  destruct (toString c) as [text|]; [|done].
  split; [|split]; cbn [calls fullContent].
  - apply growing_snoc; [exact Hgrow|]. rewrite Hlast. apply prefix_app.
  - apply last_snoc.
  - apply Forall_app. split.
    + eapply Forall_impl; [exact Hall|]. intros x Hx. cbn in Hx.
      eapply prefix_trans; [exact Hx|apply prefix_app].
    + constructor; [apply prefix_refl|constructor].
Qed.

Lemma log_ok_lines (lines : list string) (st : state) :
  log_ok st -> log_ok (run_lines JSON_parse lines st).
Proof.
  revert st. induction lines as [|l ls IH]; intros st Hst; [exact Hst|].
  rewrite StreamFacts.run_lines_cons. apply IH, log_ok_line, Hst.
Qed.

Lemma log_ok_chunks (chunks : list string) (st : state) :
  log_ok st -> log_ok (run_chunks JSON_parse chunks st).
Proof.
  revert st. induction chunks as [|c cs IH]; intros st Hst; [exact Hst|].
  rewrite StreamFacts.run_chunks_cons. apply IH, log_ok_lines, Hst.
Qed.

(** X1. The texts handed to the callback grow: each is a prefix of the
    next; the last one is the text the decoder returns (with no call the
    returned text is empty); and every one is a prefix of the returned
    text. *)
Theorem callback_log_grows (chunks : list string) :
  growing (calls (handleStreamResponse JSON_parse chunks)) = true
  /\ List.last (calls (handleStreamResponse JSON_parse chunks)) EmptyString
     = fullContent (handleStreamResponse JSON_parse chunks)
  /\ Forall (fun c => String.prefix c (fullContent (handleStreamResponse JSON_parse chunks)) = true)
       (calls (handleStreamResponse JSON_parse chunks)).
Proof.
  apply (log_ok_chunks chunks initial). split; [reflexivity|]. split; [reflexivity|constructor].
Qed.

(** X2. Where the reads are cut does not matter as long as they are cut
    between lines: one read holding the lines [l1 ++ l2] gives the same
    text and the same calls as two reads holding [l1] and [l2]. *)
Theorem reads_cut_between_lines (before after l1 l2 : list string) :
  Forall newline_free (l1 ++ l2) ->
  handleStreamResponse JSON_parse (before ++ Js.unlines (l1 ++ l2) :: after)
  = handleStreamResponse JSON_parse (before ++ Js.unlines l1 :: Js.unlines l2 :: after).
Proof.
  intros Hfree. pose proof Hfree as Hboth. apply Forall_app in Hboth as [H1 H2].
  unfold handleStreamResponse.
  rewrite !StreamFacts.run_chunks_app, !StreamFacts.run_chunks_cons. f_equal.
  rewrite (StreamFacts.lines_of_unlines _ Hfree), (StreamFacts.lines_of_unlines _ H1),
    (StreamFacts.lines_of_unlines _ H2).
  now rewrite List.filter_app, StreamFacts.run_lines_app.
Qed.

End Decoder.

Lemma reads_cut_between_lines_witness :
  handleStreamResponse JsonParser.parse
    [Js.unlines ([delta_frame "Hel"] ++ [delta_frame "lo"; done_frame])]
  = handleStreamResponse JsonParser.parse
      [Js.unlines [delta_frame "Hel"]; Js.unlines [delta_frame "lo"; done_frame]].
Proof.
  apply (reads_cut_between_lines JsonParser.parse [] [] [delta_frame "Hel"]
           [delta_frame "lo"; done_frame]).
  repeat constructor.
Defined.

End StreamMore.

(** ** More facts about the credential holder *)

Module CredentialMore.
Import Db Credential.

(** X3. After [clearApiKey], whatever was saved before and whatever is
    done with the settings store afterwards, [getApiKey] returns [null];
    both storage slots are empty, the key of the settings store is empty
    and marked not valid. *)
Theorem cleared_key_is_gone (now : nat) (b : Browser) (l : list StoreAction) :
  getApiKey (acts l (clearApiKey now b)) = None
  /\ sessionStorage (clearApiKey now b) !! "openai-api-key" = None
  /\ localStorage (clearApiKey now b) !! "openai-api-key-encrypted" = None
  /\ openaiKey (useSettingsStore (clearApiKey now b)) = EmptyString
  /\ isKeyValid (useSettingsStore (clearApiKey now b)) = false.
Proof.
  split_and!.
  - rewrite CredentialFacts.getApiKey_session, CredentialFacts.acts_sessionStorage.
    cbn. now rewrite lookup_delete_eq.
  - cbn. apply lookup_delete_eq.
  - cbn. apply lookup_delete_eq.
  - cbn. unfold updateSetting. cbn. now destruct (store_settings (useSettingsStore b)).
  - cbn. unfold updateSetting. cbn. now destruct (store_settings (useSettingsStore b)).
Qed.

(** X4. A key saved to the session slot shadows a key saved later to the
    persistent slot: [getApiKey] keeps returning the first key, while the
    persistent slot and the settings store hold the second. *)
Theorem session_key_shadows_persistent (key1 key2 : string) (now1 now2 : nat) (b : Browser) :
  key1 <> EmptyString ->
  getApiKey (setApiKey key2 true now2 (setApiKey key1 false now1 b)) = Some key1
  /\ localStorage (setApiKey key2 true now2 (setApiKey key1 false now1 b))
       !! "openai-api-key-encrypted" = Some key2
  /\ openaiKey (useSettingsStore (setApiKey key2 true now2 (setApiKey key1 false now1 b))) = key2.
Proof.
  intros Hkey. split_and!.
  - rewrite CredentialFacts.getApiKey_session, CredentialFacts.setApiKey_persistent_slot,
      CredentialFacts.setApiKey_session_slot, lookup_insert_eq.
    now destruct key1.
  - cbn. apply lookup_insert_eq.
  - reflexivity.
Qed.

Lemma session_key_shadows_persistent_witness :
  getApiKey (setApiKey "sk-new" true 9 (setApiKey "sk-old" false 5 Samples.configured_browser))
  = Some "sk-old"
  /\ localStorage (setApiKey "sk-new" true 9 (setApiKey "sk-old" false 5 Samples.configured_browser))
       !! "openai-api-key-encrypted" = Some "sk-new"
  /\ openaiKey (useSettingsStore
                  (setApiKey "sk-new" true 9 (setApiKey "sk-old" false 5 Samples.configured_browser)))
     = "sk-new".
Proof.
  apply (session_key_shadows_persistent "sk-old" "sk-new" 5 9 Samples.configured_browser).
  discriminate.
Defined.

End CredentialMore.

(** ** More facts about recording an analysis *)

Module AnalysisMore.
Import Db AnalysisPage More.

Lemma last_app_cons {A : Type} (l1 : list A) (x : A) (l2 : list A) (d d' : A) :
  List.last (l1 ++ x :: l2) d = List.last (x :: l2) d'.
Proof.
  revert d. induction l1 as [|a l1 IH]; intros d.
  - cbn [app]. now rewrite !AnalysisFacts.last_cons.
  - change ((a :: l1) ++ x :: l2)%list with (a :: (l1 ++ x :: l2))%list.
    rewrite AnalysisFacts.last_cons. apply IH.
Qed.

(** One operation, whatever failure meets it: the rows there were stay as
    they are in every state it commits, and the user gets one more latest
    row exactly when the operation meets no failure. *)
Lemma save_states_grow (f : Fault) (uid : nat) (result : AnalysisResult) (now : nat)
    (db : SkillLeadDB) :
  keys_below (analyses db) ->
  let states := (save_states f uid result now db).2 in
  let db' := List.last states db in
  keys_below (analyses db')
  /\ rows (analyses db) ⊆ rows (analyses db')
  /\ Forall (fun s => rows (analyses s) ⊆ rows (analyses db')) states
  /\ forall u, count_latest u db'
               = length (fulfilled_of u [(f, (uid, result, now))]) + count_latest u db.
Proof.
  intros Hbelow.
  assert (Hsub : rows (analyses db) ⊆ rows (analyses (recorded uid result now db))).
  { rewrite AnalysisFacts.rows_recorded. apply insert_subseteq.
    now apply AnalysisFacts.next_key_free. }
  unfold save_states. rewrite (AnalysisFacts.add_new_recorded _ _ _ _ Hbelow).
  rewrite AnalysisFacts.mark_previous_same.
  destruct f; cbn [snd List.last fulfilled_of List.filter fst length op_user].
  - split_and!.
    + now apply AnalysisFacts.keys_below_recorded.
    + exact Hsub.
    + apply List.Forall_cons; [exact Hsub|]. apply List.Forall_cons; [done|apply List.Forall_nil].
    + intros u. destruct (Nat.eqb_spec uid u) as [->|Hne].
      * now rewrite AnalysisFacts.count_recorded_same.
      * now rewrite AnalysisFacts.count_recorded_other.
  - split_and!; [exact Hbelow|done|apply List.Forall_nil|done].
  - split_and!; [exact Hbelow|done| |done].
    apply List.Forall_cons; [done|apply List.Forall_nil].
Qed.

Lemma fulfilled_of_cons (u : nat) (op : FaultyOp) (ops : list FaultyOp) :
  length (fulfilled_of u (op :: ops)) = length (fulfilled_of u [op]) + length (fulfilled_of u ops).
Proof.
  unfold fulfilled_of. cbn [List.filter].
  destruct (match op.1 with no_fault => _ | _ => false end); reflexivity.
Qed.

Lemma faulty_history_grows (ops : list FaultyOp) (db : SkillLeadDB) :
  keys_below (analyses db) ->
  keys_below (analyses (faulty_run ops db))
  /\ rows (analyses db) ⊆ rows (analyses (faulty_run ops db))
  /\ Forall (fun s => rows (analyses s) ⊆ rows (analyses (faulty_run ops db)))
       (faulty_history ops db)
  /\ forall u, count_latest u (faulty_run ops db)
               = length (fulfilled_of u ops) + count_latest u db.
Proof.
  unfold faulty_run. revert db.
  induction ops as [|[f [[uid result] now]] ops IH]; intros db Hbelow.
  - split_and!; [exact Hbelow|done|constructor|done].
  - destruct (save_states_grow f uid result now db Hbelow) as (Hb1 & Hsub1 & Hall1 & Hcount1).
    destruct (IH _ Hb1) as (Hb & Hsub & Hall & Hcount).
    cbn [faulty_history].
    set (states := (save_states f uid result now db).2) in *.
    set (db1 := List.last states db) in *.
    assert (Hlast : List.last (states ++ faulty_history ops db1) db
                    = List.last (faulty_history ops db1) db1).
    { destruct (faulty_history ops db1) as [|s rest].
      - now rewrite List.app_nil_r.
      - apply last_app_cons. }
    rewrite Hlast. split_and!.
    + exact Hb.
    + now transitivity (rows (analyses db1)).
    + apply Forall_app. split; [|exact Hall].
      eapply Forall_impl; [exact Hall1|]. intros s Hs. cbn in Hs.
      now transitivity (rows (analyses db1)).
    + intros u. rewrite Hcount, Hcount1, Nat.add_assoc. f_equal.
      rewrite Nat.add_comm. symmetry. apply fulfilled_of_cons.
Qed.

(** X5. Whatever storage failures meet a sequence of record-analysis
    operations on the empty store, a row once committed is never changed
    or removed: every row of every committed state is in the final store,
    at its key and as it was written.  In the final store every user has
    as many latest rows as operations of that user were fulfilled. *)
Theorem latest_rows_pile_up (ops : list FaultyOp) (uid : nat) :
  count_latest uid (faulty_run ops empty_db) = length (fulfilled_of uid ops)
  /\ Forall (fun s => rows (analyses s) ⊆ rows (analyses (faulty_run ops empty_db)))
       (faulty_history ops empty_db).
Proof.
  destruct (faulty_history_grows ops empty_db) as (_ & _ & Hall & Hcount).
  { intros k [r Hr]. cbn in Hr. now rewrite lookup_empty in Hr. }
  split; [|exact Hall].
  rewrite Hcount, AnalysisFacts.count_latest_empty. lia.
Qed.

Lemma latest_is_never_found (uid : nat) (db : SkillLeadDB) : getLatestAnalysis uid db = None.
Proof.
  apply KeyOrder.where_first_None. intros k r _. apply AnalysisFacts.criteria_none.
Qed.

(** X6. [getLatestAnalysis] finds no row, whatever the store holds: its
    criterion [latest: true] is compared as a key, which a boolean is not.
    Right after a fulfilled record-analysis operation, when the record of
    the user is in the table with [latest = true], it still returns
    nothing. *)
Theorem latest_analysis_is_never_found (uid : nat) (result : AnalysisResult) (now : nat)
    (db : SkillLeadDB) :
  keys_below (analyses db) ->
  getLatestAnalysis uid db = None
  /\ exists db',
       save no_fault uid result now db = (Fulfilled, db')
       /\ rows (analyses db') !! keygen (analyses db) = Some (analysisRecord uid result now)
       /\ userId (analysisRecord uid result now) = uid
       /\ latest (analysisRecord uid result now) = true
       /\ getLatestAnalysis uid db' = None.
Proof.
  intros Hbelow. split; [apply latest_is_never_found|].
  exists (recorded uid result now db). split_and!.
  - unfold save. now rewrite (AnalysisFacts.save_states_fulfilled _ _ _ _ Hbelow).
  - rewrite AnalysisFacts.rows_recorded. apply lookup_insert_eq.
  - reflexivity.
  - reflexivity.
  - apply latest_is_never_found.
Qed.

Lemma latest_analysis_is_never_found_witness :
  getLatestAnalysis 7 Samples.one_analysis = None
  /\ exists db',
       save no_fault 7 Samples.unconfirmed 200 Samples.one_analysis = (Fulfilled, db')
       /\ rows (analyses db') !! keygen (analyses Samples.one_analysis)
          = Some (analysisRecord 7 Samples.unconfirmed 200)
       /\ userId (analysisRecord 7 Samples.unconfirmed 200) = 7
       /\ latest (analysisRecord 7 Samples.unconfirmed 200) = true
       /\ getLatestAnalysis 7 db' = None.
Proof.
  apply (latest_analysis_is_never_found 7 Samples.unconfirmed 200 Samples.one_analysis).
  intros k [r Hr]. cbn in Hr.
  destruct (decide (k = 1)) as [->|Hne]; [cbn; lia|].
  rewrite lookup_singleton_ne in Hr; done.
Defined.

End AnalysisMore.

(** ** More facts about the backup codec *)

Module BackupMore.
Import Db More.

Lemma add_inv {A : Type} (row : option nat * A) (t : Table A) (k : nat) (t' : Table A) :
  add row t = Some (k, t') ->
  rows t !! k = None /\ rows t' = <[k := row.2]> (rows t) /\ (row.1 = Some k \/ row.1 = None).
Proof.
  unfold add. destruct row as [[id|] a]; cbn.
  - destruct (rows t !! id) eqn:Hk; [discriminate|].
    intros [= <- <-]. cbn. auto.
  - destruct (rows t !! keygen t) eqn:Hk; [discriminate|].
    intros [= <- <-]. cbn. auto.
Qed.

(** What a fulfilled [bulkAdd] leaves in the table. *)
Lemma bulkAdd_inv {A : Type} (l : list (option nat * A)) (t t' : Table A) :
  bulkAdd l t = Some t' ->
  size (rows t') = size (rows t) + length l
  /\ (forall k r, rows t !! k = Some r -> rows t' !! k = Some r)
  /\ (forall k r, rows t' !! k = Some r ->
        rows t !! k = Some r \/ (Some k, r) ∈ l \/ (None, r) ∈ l)
  /\ (forall k r, (Some k, r) ∈ l -> rows t' !! k = Some r).
Proof.
  revert t. induction l as [|row l IH]; intros t Hadd.
  - cbn in Hadd. injection Hadd as <-. split_and!.
    + cbn [length]. lia.
    + auto.
    + auto.
    + intros k r H. now apply elem_of_nil in H.
  - cbn [bulkAdd] in Hadd. destruct (add row t) as [[k t1]|] eqn:Hrow; [|discriminate].
    apply add_inv in Hrow as (Hfree & Hrows1 & Hid).
    destruct (IH t1 Hadd) as (Hsize & Hkeep & Hfrom & Hat).
    assert (Hk : rows t' !! k = Some row.2).
    { apply Hkeep. rewrite Hrows1. apply lookup_insert_eq. }
    split_and!.
    + rewrite Hsize, Hrows1, map_size_insert_None by done. cbn. lia.
    + intros k' r Hr. apply Hkeep. rewrite Hrows1.
      rewrite lookup_insert_ne; [done|]. intros <-. congruence.
    + intros k' r Hr. apply Hfrom in Hr as [Hr|[Hr|Hr]].
      * rewrite Hrows1 in Hr. apply lookup_insert_Some in Hr as [[<- <-]|[_ Hr]]; [|now left].
        right. destruct row as [id a]. cbn in *.
        destruct Hid as [->| ->]; [left|right]; apply elem_of_cons; now left.
      * right. left. apply elem_of_cons. now right.
      * right. right. apply elem_of_cons. now right.
    + intros k' r Hin. apply elem_of_cons in Hin as [Heq|Hin]; [|now apply Hat].
      subst row. cbn in *. destruct Hid as [[= ->]|?]; [exact Hk|discriminate].
Qed.

Lemma bulkAdd_clear_from_backup {A : Type} (l : option (list (option nat * A))) (t t' : Table A) :
  bulkAdd (or_empty l) (clear t) = Some t' -> from_backup l t'.
Proof.
  intros Hadd. apply bulkAdd_inv in Hadd as (Hsize & _ & Hfrom & Hat).
  split_and!.
  - rewrite Hsize. cbn. now rewrite map_size_empty.
  - intros k r Hr. apply Hfrom in Hr as [Hr|Hr]; [|exact Hr].
    cbn in Hr. now rewrite lookup_empty in Hr.
  - exact Hat.
Qed.

(** X7. A fulfilled import replaces the store, it does not merge: in every
    table the rows are the rows of the backup array of that table, as many
    and each at the id the backup gives it; no row from before the import
    is left, and a table whose key is absent from the backup is empty. *)
Theorem import_replaces (backupData : Backup) (d : BackupTables) (db db' : SkillLeadDB) :
  data backupData = Some d ->
  importData backupData db = (Fulfilled, db') ->
  from_backup (data_users d) (users db')
  /\ from_backup (data_studentProfiles d) (studentProfiles db')
  /\ from_backup (data_professionalProfiles d) (professionalProfiles db')
  /\ from_backup (data_analyses d) (analyses db')
  /\ from_backup (data_chatThreads d) (chatThreads db')
  /\ from_backup (data_chatMessages d) (chatMessages db')
  /\ from_backup (data_settings d) (settings db').
Proof.
  intros Hd Himport. unfold importData, transaction, import_body in Himport.
  rewrite Hd in Himport. unfold bulkAdd_all, clear_all in Himport. cbn in Himport.
  destruct (bulkAdd (or_empty (data_users d)) _) as [t1|] eqn:H1; [|discriminate].
  cbn in Himport.
  destruct (bulkAdd (or_empty (data_studentProfiles d)) _) as [t2|] eqn:H2; [|discriminate].
  cbn in Himport.
  destruct (bulkAdd (or_empty (data_professionalProfiles d)) _) as [t3|] eqn:H3; [|discriminate].
  cbn in Himport.
  destruct (bulkAdd (or_empty (data_analyses d)) _) as [t4|] eqn:H4; [|discriminate].
  cbn in Himport.
  destruct (bulkAdd (or_empty (data_chatThreads d)) _) as [t5|] eqn:H5; [|discriminate].
  cbn in Himport.
  destruct (bulkAdd (or_empty (data_chatMessages d)) _) as [t6|] eqn:H6; [|discriminate].
  cbn in Himport.
  destruct (bulkAdd (or_empty (data_settings d)) _) as [t7|] eqn:H7; [|discriminate].
  cbn in Himport. injection Himport as <-. cbn.
  split_and!; eapply bulkAdd_clear_from_backup; eassumption.
Qed.

Lemma import_replaces_witness :
  from_backup (data_users MoreSamples.two_users)
    (users (importData MoreSamples.small_backup Samples.one_analysis).2)
  /\ from_backup (data_studentProfiles MoreSamples.two_users)
       (studentProfiles (importData MoreSamples.small_backup Samples.one_analysis).2)
  /\ from_backup (data_professionalProfiles MoreSamples.two_users)
       (professionalProfiles (importData MoreSamples.small_backup Samples.one_analysis).2)
  /\ from_backup (data_analyses MoreSamples.two_users)
       (analyses (importData MoreSamples.small_backup Samples.one_analysis).2)
  /\ from_backup (data_chatThreads MoreSamples.two_users)
       (chatThreads (importData MoreSamples.small_backup Samples.one_analysis).2)
  /\ from_backup (data_chatMessages MoreSamples.two_users)
       (chatMessages (importData MoreSamples.small_backup Samples.one_analysis).2)
  /\ from_backup (data_settings MoreSamples.two_users)
       (settings (importData MoreSamples.small_backup Samples.one_analysis).2).
Proof.
  apply (import_replaces MoreSamples.small_backup MoreSamples.two_users Samples.one_analysis).
  - reflexivity.
  - vm_compute. reflexivity.
Defined.

(** X8. A backup document without a [data] object is rejected and the store
    is kept; a document whose [data] object has no table key is accepted
    and empties every table. *)
Theorem import_without_tables (version exported : nat) (db : SkillLeadDB) :
  importData (mkBackup version exported None) db = (Rejected, db)
  /\ importData (mkBackup version exported (Some no_tables)) db = (Fulfilled, clear_all db)
  /\ same_rows (clear_all db) empty_db.
Proof. split_and!; try reflexivity. unfold same_rows. cbn. tauto. Qed.

End BackupMore.

(** ** Facts about the query helpers *)

Module QueryFacts.
Import Db Queries KeyOrder.

Section ByKey.
Context {A : Type}.
Variable f : Row A -> Z.

Local Abbreviation by_f := (fun a b : Row A => f a - f b)%Z.
Local Abbreviation key_lt := (fun a b : Row A => a.1 < b.1).

Lemma insert_before (x : Row A) (s : list (Row A)) :
  StronglySorted (before f) s ->
  Forall (fun y => x.1 < y.1) s ->
  StronglySorted (before f) (insert by_f x s).
Proof.
  induction s as [|y s IH]; intros Hsorted Hkeys.
  - cbn. repeat constructor.
  - apply StronglySorted_inv in Hsorted as [Hs Hy].
    apply List.Forall_cons_iff in Hkeys as [Hxy Hkeys].
    cbn. destruct (Z.leb_spec (f x - f y) 0) as [Hle|Hgt].
    + constructor; [now constructor|].
      constructor.
      * unfold before. destruct (decide (f x = f y)); [right|left]; lia.
      * rewrite List.Forall_forall in Hy, Hkeys. apply List.Forall_forall.
        intros z Hz. specialize (Hy z Hz). specialize (Hkeys z Hz).
        unfold before in *. destruct (decide (f x = f z)); [right|left]; lia.
    + constructor; [now apply IH|].
      apply List.Forall_forall. intros z Hz.
      apply list_elem_of_In, (elem_of_Permutation_proper _ _ _ (insert_perm by_f x s)),
        elem_of_cons in Hz.
      destruct Hz as [->|Hz].
      * left. lia.
      * rewrite List.Forall_forall in Hy. now apply Hy, list_elem_of_In.
Qed.

(** The stable sort of rows that come in the order of their keys orders
    them by [f] and, where [f] ties, by key. *)
Lemma sort_before (l : list (Row A)) :
  StronglySorted key_lt l -> StronglySorted (before f) (sort by_f l).
Proof.
  induction l as [|x l IH]; intros Hsorted; [constructor|].
  apply StronglySorted_inv in Hsorted as [Hl Hx].
  cbn. apply insert_before; [now apply IH|].
  apply List.Forall_forall. intros y Hy.
  apply list_elem_of_In, elem_of_sort, list_elem_of_In in Hy.
  rewrite List.Forall_forall in Hx. now apply Hx.
Qed.

End ByKey.

Lemma elem_of_where_equals {A : Type} (index : A -> nat) (value : nat) (t : Table A)
    (k : nat) (r : A) :
  (k, r) ∈ where_equals index value t <-> rows t !! k = Some r /\ index r = value.
Proof.
  unfold where_equals. rewrite list_elem_of_In, List.filter_In, <- list_elem_of_In.
  rewrite elem_of_rows_by_key. cbn. now rewrite Nat.eqb_eq.
Qed.

Lemma where_equals_sorted {A : Type} (index : A -> nat) (value : nat) (t : Table A) :
  StronglySorted (fun a b : Row A => a.1 < b.1) (where_equals index value t).
Proof. apply filter_sorted, rows_by_key_sorted. Qed.

(** The first row of [where(index).equals(value)] is the matching row with
    the smallest key. *)
Lemma head_where_equals {A : Type} (index : A -> nat) (value : nat) (t : Table A)
    (k : nat) (r : A) :
  head (where_equals index value t) = Some (k, r)
  <-> rows t !! k = Some r /\ index r = value
      /\ forall k' r', rows t !! k' = Some r' -> index r' = value -> k <= k'.
Proof.
  pose proof (where_equals_sorted index value t) as Hsorted.
  pose proof (elem_of_where_equals index value t) as Helem.
  destruct (where_equals index value t) as [|[k0 r0] l]; cbn.
  - split; [discriminate|]. intros (Hr & Hv & _).
    assert (Hin : (k, r) ∈ @nil (Row A)) by now apply Helem.
    now apply elem_of_nil in Hin.
  - apply StronglySorted_inv in Hsorted as [_ Hfirst].
    rewrite List.Forall_forall in Hfirst.
    assert (Hmin : forall k' r', rows t !! k' = Some r' -> index r' = value -> k0 <= k').
    { intros k' r' Hr' Hv'.
      assert (Hin : (k', r') ∈ (k0, r0) :: l) by now apply Helem.
      apply elem_of_cons in Hin as [[= -> ->]|Hin]; [lia|].
      apply list_elem_of_In, Hfirst in Hin. cbn in Hin. lia. }
    destruct (proj1 (Helem k0 r0) ltac:(left)) as [Hr0 Hv0].
    split.
    + intros [= <- <-]. auto.
    + intros (Hr & Hv & Hleast).
      assert (k = k0) as -> by (specialize (Hmin k r Hr Hv); specialize (Hleast k0 r0 Hr0 Hv0); lia).
      rewrite Hr0 in Hr. now injection Hr as <-.
Qed.

Lemma head_where_equals_None {A : Type} (index : A -> nat) (value : nat) (t : Table A) :
  head (where_equals index value t) = None
  <-> forall k r, rows t !! k = Some r -> index r <> value.
Proof.
  pose proof (elem_of_where_equals index value t) as Helem.
  destruct (where_equals index value t) as [|[k0 r0] l]; cbn.
  - split; [|reflexivity]. intros _ k r Hr Hv.
    assert (Hin : (k, r) ∈ @nil (Row A)) by now apply Helem.
    now apply elem_of_nil in Hin.
  - split; [discriminate|]. intros Hnone.
    destruct (proj1 (Helem k0 r0) ltac:(left)) as [Hr0 Hv0]. now apply Hnone in Hr0.
Qed.

(** X9. [getChatMessages] returns the messages of the thread, each once,
    oldest first; messages created at the same time come in the order of
    their ids, whatever the order in which the rows were inserted. *)
Theorem chat_messages_oldest_first (thread : nat) (db : SkillLeadDB) :
  StronglySorted (before (fun kr : Row ChatMessage => Z.of_nat (message_createdAt kr.2)))
    (getChatMessages thread db)
  /\ NoDup (getChatMessages thread db)
  /\ forall k m,
       (k, m) ∈ getChatMessages thread db
       <-> rows (chatMessages db) !! k = Some m /\ threadId m = thread.
Proof.
  unfold getChatMessages. split_and!.
  - apply (sort_before (fun kr : Row ChatMessage => Z.of_nat (message_createdAt kr.2))).
    apply where_equals_sorted.
  - rewrite sort_perm. apply sorted_by_key_NoDup, where_equals_sorted.
  - intros k m. now rewrite elem_of_sort, elem_of_where_equals.
Qed.

(** X10. [getChatThreads] returns the threads of the user, each once,
    newest first; threads created at the same time come in the order of
    their ids. *)
Theorem chat_threads_newest_first (userId : nat) (db : SkillLeadDB) :
  StronglySorted (before (fun kr : Row ChatThread => - Z.of_nat (thread_createdAt kr.2))%Z)
    (getChatThreads userId db)
  /\ NoDup (getChatThreads userId db)
  /\ forall k t,
       (k, t) ∈ getChatThreads userId db
       <-> rows (chatThreads db) !! k = Some t /\ thread_userId t = userId.
Proof.
  unfold getChatThreads. split_and!.
  - erewrite sort_ext.
    + apply (sort_before (fun kr : Row ChatThread => - Z.of_nat (thread_createdAt kr.2))%Z).
      apply where_equals_sorted.
    + intros a b. cbn. lia.
  - rewrite sort_perm. apply sorted_by_key_NoDup, where_equals_sorted.
  - intros k t. now rewrite elem_of_sort, elem_of_where_equals.
Qed.

(** X11. [getSettings] returns nothing exactly when the settings table is
    empty; otherwise it returns a row of the table that no row was updated
    after, the one with the smallest id among those updated last. *)
Theorem settings_updated_last (db : SkillLeadDB) :
  (getSettings db = None <-> rows (settings db) = ∅)
  /\ forall k s,
       getSettings db = Some (k, s) ->
       rows (settings db) !! k = Some s
       /\ forall k' s',
            rows (settings db) !! k' = Some s' ->
            settings_updatedAt s' <= settings_updatedAt s
            /\ (settings_updatedAt s' = settings_updatedAt s -> k <= k').
Proof.
  unfold getSettings.
  set (f := (fun kr : Row AppSettings => - Z.of_nat (settings_updatedAt kr.2))%Z).
  assert (Hsorted : StronglySorted (before f)
            (sort (fun a b : Row AppSettings =>
                     Z.of_nat (settings_updatedAt b.2) - Z.of_nat (settings_updatedAt a.2))%Z
               (rows_by_key (settings db)))).
  { erewrite sort_ext; [apply (sort_before f), rows_by_key_sorted|].
    intros a b. unfold f. cbn. lia. }
  assert (Helem : forall k s,
            (k, s) ∈ sort (fun a b : Row AppSettings =>
                             Z.of_nat (settings_updatedAt b.2) - Z.of_nat (settings_updatedAt a.2))%Z
                       (rows_by_key (settings db))
            <-> rows (settings db) !! k = Some s).
  { intros k s. now rewrite elem_of_sort, elem_of_rows_by_key. }
  destruct (sort _ _) as [|[k0 s0] l]; cbn.
  - split.
    + split; [|reflexivity]. intros _. apply map_eq. intros k. rewrite lookup_empty.
      destruct (rows (settings db) !! k) as [s|] eqn:Hk; [|reflexivity].
      apply Helem in Hk. now apply elem_of_nil in Hk.
    + discriminate.
  - split.
    + split; [discriminate|]. intros Hempty.
      assert (Hk : rows (settings db) !! k0 = Some s0) by (apply Helem; left).
      rewrite Hempty, lookup_empty in Hk. discriminate.
    + intros k s [= <- <-]. split; [apply Helem; left|].
      intros k' s' Hk'. apply Helem, elem_of_cons in Hk' as [[= -> ->]|Hin]; [lia|].
      apply StronglySorted_inv in Hsorted as [_ Hfirst].
      rewrite List.Forall_forall in Hfirst.
      apply list_elem_of_In, Hfirst in Hin. unfold before, f in Hin. cbn in Hin. lia.
Qed.

(** X12. [getProfileByUserId] looks in the table of the role only, and
    returns the profile of the user with the smallest id there; it returns
    nothing exactly when that table has no profile of the user. *)
Theorem first_profile_of_user (userId : nat) (db : SkillLeadDB) :
  (forall k p,
     getProfileByUserId userId student db = Some (inl (k, p))
     <-> rows (studentProfiles db) !! k = Some p /\ student_userId p = userId
         /\ forall k' p', rows (studentProfiles db) !! k' = Some p' ->
                          student_userId p' = userId -> k <= k')
  /\ (getProfileByUserId userId student db = None
      <-> forall k p, rows (studentProfiles db) !! k = Some p -> student_userId p <> userId)
  /\ (forall k p,
        getProfileByUserId userId professional db = Some (inr (k, p))
        <-> rows (professionalProfiles db) !! k = Some p /\ professional_userId p = userId
            /\ forall k' p', rows (professionalProfiles db) !! k' = Some p' ->
                             professional_userId p' = userId -> k <= k')
  /\ (getProfileByUserId userId professional db = None
      <-> forall k p, rows (professionalProfiles db) !! k = Some p ->
                      professional_userId p <> userId).
Proof.
  unfold getProfileByUserId. split_and!.
  - intros k p. rewrite <- head_where_equals.
    destruct (head _) as [x|]; cbn; split; intros H;
      try discriminate; now injection H as ->.
  - rewrite <- head_where_equals_None.
    destruct (head _); cbn; split; intros H; try discriminate; reflexivity.
  - intros k p. rewrite <- head_where_equals.
    destruct (head _) as [x|]; cbn; split; intros H;
      try discriminate; now injection H as ->.
  - rewrite <- head_where_equals_None.
    destruct (head _); cbn; split; intros H; try discriminate; reflexivity.
Qed.

End QueryFacts.

(** ** Facts about [trim] *)

Module TrimFacts.
Import JsMore.

Lemma all_space_trimStart (s : string) : Js.all_space (trimStart s) = Js.all_space s.
Proof.
  induction s as [|c s IH]; [reflexivity|].
  cbn. destruct (Js.is_space c) eqn:Hc; [exact IH|]. cbn. now rewrite Hc.
Qed.

Lemma trimEnd_empty (s : string) : trimEnd s = EmptyString <-> Js.all_space s = true.
Proof.
  induction s as [|c s IH]; [done|].
  cbn. destruct (trimEnd s) as [|d r] eqn:Hr.
  - destruct (Js.is_space c); cbn; [|split; discriminate].
    destruct IH as [IH _]. now rewrite IH.
  - split; [discriminate|]. intros H. apply andb_true_iff in H as [_ H].
    apply IH in H. discriminate.
Qed.

(** [s.trim()] is empty exactly when [s] is made of white space. *)
Lemma trim_empty (s : string) : trim s = EmptyString <-> Js.all_space s = true.
Proof. unfold trim. now rewrite trimEnd_empty, all_space_trimStart. Qed.

Lemma trim_nonempty_ne (s : string) : Js.trim_nonempty s = true -> trim s <> EmptyString.
Proof.
  unfold Js.trim_nonempty. intros H Ht. apply trim_empty in Ht. rewrite Ht in H. discriminate.
Qed.

Lemma trimEnd_cons (c : ascii) (s : string) :
  trimEnd (String c s)
  = match trimEnd s with
    | EmptyString => if Js.is_space c then EmptyString else String c EmptyString
    | rest => String c rest
    end.
Proof. reflexivity. Qed.

Lemma trimEnd_idem (s : string) : trimEnd (trimEnd s) = trimEnd s.
Proof.
  induction s as [|c s IH]; [reflexivity|].
  rewrite trimEnd_cons. destruct (trimEnd s) as [|d r] eqn:Hr.
  - destruct (Js.is_space c) eqn:Hc; [reflexivity|]. rewrite trimEnd_cons. cbn. now rewrite Hc.
  - rewrite trimEnd_cons, IH. reflexivity.
Qed.

Lemma starts_clean_trimStart (s : string) : starts_clean (trimStart s) = true.
Proof.
  induction s as [|c s IH]; [reflexivity|].
  cbn. destruct (Js.is_space c) eqn:Hc; [exact IH|]. cbn. now rewrite Hc.
Qed.

Lemma trimStart_clean (s : string) : starts_clean s = true -> trimStart s = s.
Proof.
  destruct s as [|c s]; [reflexivity|]. cbn. now destruct (Js.is_space c).
Qed.

Lemma starts_clean_trimEnd (s : string) :
  starts_clean s = true -> starts_clean (trimEnd s) = true.
Proof.
  destruct s as [|c s]; [reflexivity|]. rewrite trimEnd_cons. cbn. intros Hc.
  destruct (trimEnd s); [|exact Hc].
  destruct (Js.is_space c) eqn:Hs; [discriminate|]. cbn. now rewrite Hs.
Qed.

Lemma trim_idem (s : string) : trim (trim s) = trim s.
Proof.
  unfold trim.
  rewrite (trimStart_clean (trimEnd (trimStart s))).
  - apply trimEnd_idem.
  - apply starts_clean_trimEnd, starts_clean_trimStart.
Qed.

End TrimFacts.

(** ** Facts about the sign-in and onboarding pages *)

Module PageFacts.
Import Db Stores Queries Pages JsMore.

Lemma add_and_sign_in_ok (u : LocalUser) (app : App) :
  keys_below (users app.1) -> signed_in u app (add_and_sign_in u app).
Proof.
  intros Hbelow. unfold add_and_sign_in.
  rewrite (DbFacts.add_generated u (users app.1) Hbelow).
  assert (Hfree : rows (users app.1) !! keygen (users app.1) = None).
  { apply eq_None_not_Some. intros Hk. apply Hbelow in Hk. lia. }
  exists (keygen (users app.1)). cbn. split_and!; try done.
  - unfold getUserById. cbn. now rewrite lookup_insert_eq.
  - intros k v Hk. rewrite lookup_insert_ne; [done|]. intros <-. congruence.
  - now apply map_size_insert_None.
  - now destruct app as [[] ?].
Qed.

(** X13. Signing in as guest or with a new profile adds one user row and
    makes that row, with its new id, the signed-in user of the auth store;
    the guest flag of the store is the one of the row; the other rows and
    tables are untouched.  A profile name made of white space changes
    nothing. *)
Theorem sign_in_adds_and_selects_user (profileName passphrase : string) (now : nat) (app : App) :
  keys_below (users app.1) ->
  signed_in (guestUser now) app (handleGuestContinue now app)
  /\ (Js.trim_nonempty profileName = true ->
      signed_in (newUser profileName passphrase now) app
        (handleCreateProfile profileName passphrase now app))
  /\ (Js.trim_nonempty profileName = false ->
      handleCreateProfile profileName passphrase now app = app).
Proof.
  intros Hbelow. unfold handleGuestContinue, handleCreateProfile. split_and!.
  - now apply add_and_sign_in_ok.
  - intros ->. now apply add_and_sign_in_ok.
  - now intros ->.
Qed.

Lemma sign_in_adds_and_selects_user_witness :
  signed_in (guestUser 50) (Samples.one_analysis, initial_auth)
    (handleGuestContinue 50 (Samples.one_analysis, initial_auth))
  /\ (Js.trim_nonempty "Ada" = true ->
      signed_in (newUser "Ada" "secret" 50) (Samples.one_analysis, initial_auth)
        (handleCreateProfile "Ada" "secret" 50 (Samples.one_analysis, initial_auth)))
  /\ (Js.trim_nonempty "Ada" = false ->
      handleCreateProfile "Ada" "secret" 50 (Samples.one_analysis, initial_auth)
      = (Samples.one_analysis, initial_auth)).
Proof.
  apply (sign_in_adds_and_selects_user "Ada" "secret" 50 (Samples.one_analysis, initial_auth)).
  intros k [r Hr]. cbn in Hr. cbn.
  destruct (decide (k = 1)) as [->|Hne]; [lia|].
  rewrite lookup_singleton_ne in Hr; done.
Defined.

(** X14. Choosing a role writes the role and the time to the row of the
    signed-in user and to no other row, and puts the role, but not the
    time, into the user of the auth store; when the table has no row at
    the user's id the table is left as it is and the store is changed all
    the same.  With nobody signed in nothing changes. *)
Theorem role_selection_updates_row_and_store (r : Role) (now : nat) (app : App) :
  (currentUser app.2 = None -> handleRoleSelection r now app = app)
  /\ forall id u,
       currentUser app.2 = Some (Some id, u) ->
       rows (users (handleRoleSelection r now app).1) !! id
       = set_role_and_time r now <$> rows (users app.1) !! id
       /\ (forall k, k <> id ->
             rows (users (handleRoleSelection r now app).1) !! k = rows (users app.1) !! k)
       /\ currentUser (handleRoleSelection r now app).2
          = Some (Some id, mkLocalUser (user_name u) r (user_createdAt u) (user_updatedAt u)
                             (isGuest u) (passphraseProtected u))
       /\ isAuthenticated (handleRoleSelection r now app).2 = true.
Proof.
  unfold handleRoleSelection. split.
  - now intros ->.
  - intros id u ->. cbn. split_and!; try done.
    + apply lookup_alter_eq.
    + intros k Hne. now apply lookup_alter_ne.
Qed.

Lemma includes_elem_of (x : string) (l : list string) :
  includes x l = true <-> x ∈ l.
Proof.
  unfold includes. rewrite List.existsb_exists. split.
  - intros (y & Hin & Heq). apply String.eqb_eq in Heq as ->. now apply list_elem_of_In.
  - intros Hin. exists x. split; [now apply list_elem_of_In|apply String.eqb_refl].
Qed.

Lemma tidy_add (text : string) (l : list string) :
  tidy l ->
  tidy (if Js.trim_nonempty text && negb (includes (trim text) l)
        then (l ++ [trim text])%list else l).
Proof.
  intros [Hnodup Hall].
  destruct (Js.trim_nonempty text) eqn:Htext; [|done].
  destruct (includes (trim text) l) eqn:Hinc; [done|]. cbn.
  split.
  - apply NoDup_app. split_and!; [done| |apply NoDup_singleton].
    intros x Hx Hx'. apply list_elem_of_singleton in Hx' as ->.
    apply includes_elem_of in Hx. congruence.
  - apply Forall_app. split; [done|]. constructor; [|constructor].
    split; [apply TrimFacts.trim_idem|now apply TrimFacts.trim_nonempty_ne].
Qed.

Lemma NoDup_list_filter {A : Type} (p : A -> bool) (l : list A) :
  NoDup l -> NoDup (List.filter p l).
Proof.
  induction 1 as [|x l Hx Hl IH]; [constructor|].
  cbn. destruct (p x); [|exact IH].
  constructor; [|exact IH]. intros Hin.
  apply list_elem_of_In, List.filter_In in Hin as [Hin _]. now apply Hx, list_elem_of_In.
Qed.

Lemma tidy_remove (x : string) (l : list string) :
  tidy l -> tidy (List.filter (fun i => negb (String.eqb i x)) l).
Proof.
  intros [Hnodup Hall]. split.
  - now apply NoDup_list_filter.
  - apply List.Forall_forall. intros e He. apply List.filter_In in He as [He _].
    rewrite List.Forall_forall in Hall. now apply Hall.
Qed.

Lemma tidy_form_act (a : FormAction) (s : Form) :
  tidy (interests s) /\ tidy (locations s) ->
  tidy (interests (form_act a s)) /\ tidy (locations (form_act a s)).
Proof.
  intros [Hi Hl]. destruct a; cbn; try done.
  - unfold addSkill. now destruct (Js.trim_nonempty _).
  - unfold addInterest. pose proof (tidy_add (newInterest s) (interests s) Hi) as H.
    now destruct (_ && _).
  - split; [now apply tidy_remove|done].
  - unfold addLocation. pose proof (tidy_add (newLocation s) (locations s) Hl) as H.
    now destruct (_ && _).
  - split; [done|now apply tidy_remove].
  - unfold handleNext. now destruct (_ <? _)%nat.
  - unfold handlePrevious. now destruct (_ <? _)%nat.
Qed.

Lemma tidy_form_acts (l : list FormAction) (s : Form) :
  tidy (interests s) /\ tidy (locations s) ->
  tidy (interests (form_acts l s)) /\ tidy (locations (form_acts l s)).
Proof.
  revert s. induction l as [|a l IH]; intros s Hs; [exact Hs|].
  apply (IH (form_act a s)), tidy_form_act, Hs.
Qed.

(** What an add does to the entries of a list. *)
Lemma elem_of_added (text x : string) (l : list string) :
  x ∈ (if Js.trim_nonempty text && negb (includes (trim text) l)
       then (l ++ [trim text])%list else l)
  <-> x ∈ l \/ (Js.trim_nonempty text = true /\ x = trim text).
Proof.
  destruct (Js.trim_nonempty text); cbn [andb].
  - destruct (includes (trim text) l) eqn:Hinc; cbn [negb].
    + apply includes_elem_of in Hinc. split; [now left|].
      intros [H|[_ ->]]; done.
    + rewrite elem_of_app, list_elem_of_singleton. split.
      * intros [H| ->]; [now left|now right].
      * intros [H|[_ ->]]; [now left|now right].
  - split; [now left|]. intros [H|[H _]]; [done|discriminate].
Qed.

(** What a remove does to them. *)
Lemma elem_of_removed (text x : string) (l : list string) :
  x ∈ List.filter (fun i => negb (String.eqb i text)) l <-> x ∈ l /\ x <> text.
Proof.
  rewrite list_elem_of_In, List.filter_In, <- list_elem_of_In.
  destruct (String.eqb_spec x text) as [->|Hne]; cbn; split; intros [H1 H2]; done.
Qed.

(** X15. Whatever is typed and clicked on the profile form, the lists of
    interests and of locations never hold an entry twice, and every entry
    is trimmed and not empty.  For both lists, an add keeps the entries
    there are and, when the text typed is not white space, puts in its
    trimmed form; a remove takes out the entry, every occurrence, and no
    other. *)
Theorem interests_and_locations_stay_tidy (l : list FormAction) (text x : string) :
  tidy (interests (form_acts l initial_form))
  /\ tidy (locations (form_acts l initial_form))
  /\ (x ∈ interests (addInterest (setNewInterest text (form_acts l initial_form)))
      <-> x ∈ interests (form_acts l initial_form)
          \/ (Js.trim_nonempty text = true /\ x = trim text))
  /\ (x ∈ interests (removeInterest text (form_acts l initial_form))
      <-> x ∈ interests (form_acts l initial_form) /\ x <> text)
  /\ (x ∈ locations (addLocation (setNewLocation text (form_acts l initial_form)))
      <-> x ∈ locations (form_acts l initial_form)
          \/ (Js.trim_nonempty text = true /\ x = trim text))
  /\ (x ∈ locations (removeLocation text (form_acts l initial_form))
      <-> x ∈ locations (form_acts l initial_form) /\ x <> text).
Proof.
  destruct (tidy_form_acts l initial_form) as [Hi Hl].
  { split; (split; [apply NoDup_nil_2|constructor]). }
  split_and!; try done.
  - rewrite <- elem_of_added. unfold addInterest, setNewInterest. cbn [newInterest interests].
    now destruct (_ && _).
  - apply elem_of_removed.
  - rewrite <- elem_of_added. unfold addLocation, setNewLocation. cbn [newLocation locations].
    now destruct (_ && _).
  - apply elem_of_removed.
Qed.

Lemma filter_index_take_drop {A : Type} (index : nat) (l : list A) :
  filter_index index l = (take index l ++ drop (S index) l)%list.
Proof.
  revert index. induction l as [|x l IH]; intros [|i]; cbn; try reflexivity.
  now rewrite IH.
Qed.

(** X16. [removeSkill] takes out the skill at the given position and no
    other, and changes nothing when the position is past the end; a skill
    is added as typed, name not trimmed, also when the list holds it
    already, and removing the last position after an add gives the list
    from before. *)
Theorem skills_are_removed_by_position (index : nat) (v : Skill) (s : Form) :
  skills (removeSkill index s) = (take index (skills s) ++ drop (S index) (skills s))%list
  /\ (length (skills s) <= index -> removeSkill index s = s)
  /\ (Js.trim_nonempty (skill_name v) = true ->
      skills (addSkill (setNewSkill v s)) = (skills s ++ [v])%list
      /\ skills (removeSkill (length (skills s)) (addSkill (setNewSkill v s))) = skills s).
Proof.
  split_and!.
  - apply filter_index_take_drop.
  - intros Hlen. unfold removeSkill.
    rewrite filter_index_take_drop, take_ge, drop_ge, List.app_nil_r by lia.
    now destruct s.
  - intros Hname. unfold addSkill. cbn. rewrite Hname. cbn. split; [reflexivity|].
    rewrite filter_index_take_drop, take_app_length, drop_ge, List.app_nil_r;
      [reflexivity|rewrite length_app; cbn; lia].
Qed.

Lemma step_form_act (a : FormAction) (s : Form) :
  currentStep s < steps_length -> currentStep (form_act a s) < steps_length.
Proof.
  unfold steps_length. intros Hs. destruct a; cbn; try done.
  - unfold addSkill. now destruct (Js.trim_nonempty _).
  - unfold addInterest. now destruct (_ && _).
  - unfold addLocation. now destruct (_ && _).
  - unfold handleNext, steps_length. destruct (Nat.ltb_spec (currentStep s) (4 - 1)); cbn; lia.
  - unfold handlePrevious. destruct (Nat.ltb_spec 0 (currentStep s)); cbn; lia.
Qed.

(** X17. Whatever is typed and clicked, the current step of the profile
    form stays one of the four steps; [Next] saves and leaves the form
    exactly on the last step, and [Previous] does nothing on the first. *)
Theorem form_step_stays_in_range (l : list FormAction) :
  currentStep (form_acts l initial_form) < steps_length
  /\ ((handleNext (form_acts l initial_form)).2 = true
      <-> currentStep (form_acts l initial_form) = steps_length - 1)
  /\ (currentStep (form_acts l initial_form) = 0 ->
      handlePrevious (form_acts l initial_form) = form_acts l initial_form).
Proof.
  assert (Hstep : currentStep (form_acts l initial_form) < steps_length).
  { unfold form_acts. generalize initial_form, (Nat.lt_0_succ 3 : currentStep initial_form < steps_length).
    induction l as [|a l IH]; intros s Hs; [exact Hs|].
    apply (IH (form_act a s)), step_form_act, Hs. }
  split_and!; [exact Hstep| |].
  - unfold handleNext, steps_length in *.
    destruct (Nat.ltb_spec (currentStep (form_acts l initial_form)) (4 - 1)); cbn; split;
      intros; try discriminate; try reflexivity; lia.
  - intros H0. unfold handlePrevious. now rewrite H0.
Qed.

End PageFacts.

(** ** Facts about the provider call, the chat page and the settings page *)

Module ChatFacts.
Import Json Stream Db Stores Credential OpenAI ChatPage.

Lemma replace_last_content_snoc (c : string) (pre : list Message) (m : Message) :
  replace_last_content c (pre ++ [m])
  = (pre ++ [mkMessage (message_id m) (role m) c (timestamp m) (message_isStreaming m)])%list.
Proof.
  induction pre as [|x pre IH]; [reflexivity|].
  cbn [app]. destruct (pre ++ [m])%list as [|y rest] eqn:Hrest.
  - now destruct pre.
  - cbn [replace_last_content]. cbn [replace_last_content] in IH. now rewrite IH.
Qed.

(** Updates of the last message in a row: the last one stays. *)
Lemma updates_keep_last (streamed : list string) (thread : option nat) (pre : list Message)
    (m : Message) (flag : bool) :
  fold_left (fun st c => updateLastMessage c st) streamed (mkChatState thread (pre ++ [m]) flag)
  = mkChatState thread
      (pre ++ [mkMessage (message_id m) (role m) (List.last streamed (message_content m))
                 (timestamp m) (message_isStreaming m)])
      flag.
Proof.
  revert m. induction streamed as [|c streamed IH]; intros m.
  - cbn. now destruct m.
  - cbn [fold_left]. unfold updateLastMessage at 2. cbn [messages currentThreadId chat_isStreaming].
    rewrite replace_last_content_snoc, IH. cbn [message_id role timestamp message_isStreaming message_content].
    now rewrite AnalysisFacts.last_cons.
Qed.

Ltac no_stream response :=
  destruct (json_body response) as [data|]; [destruct data|]; try discriminate;
  cbn; repeat (match goal with |- context [match ?x with _ => _ end] => destruct x end);
  try discriminate; intros [= <- <-]; now left.

Section Exchange.
Variable JSON_parse : string -> option json.
Variable fetch : Request -> Fetched.

(** What [callOpenAI] returns when it streams: the last text handed to the
    callback; otherwise no call was made. *)
Lemma callOpenAI_returned (b : Browser) (msgs : list OpenAIMessage) (stream : bool)
    (v : json) (streamed : list string) :
  callOpenAI JSON_parse fetch b msgs stream = returned v streamed ->
  streamed = [] \/ v = JStr (List.last streamed EmptyString).
Proof.
  unfold callOpenAI.
  destruct (getApiKey b) as [apiKey|]; [|discriminate].
  destruct (negb _); [discriminate|].
  destruct (fetch _) as [|response]; [discriminate|].
  destruct (negb (ok response)).
  { destruct (json_body response) as [e|]; [destruct e|]; try discriminate;
      destruct (toString _); discriminate. }
  destruct stream, (body response) as [chunks|].
  - intros [= <- <-]. right. f_equal. symmetry.
    apply (StreamMore.log_ok_chunks JSON_parse chunks initial).
    split; [reflexivity|]. split; [reflexivity|constructor].
  - no_stream response.
  - no_stream response.
  - no_stream response.
Qed.

(** X18. A chat exchange adds exactly two messages to the chat store, after
    the ones it had: the text that was typed, trimmed, and the reply.  The
    reply shows the last text the decoder handed to the callback, which is
    the value of a streamed call, or the apology when the call threw; the
    store is left not streaming.  An input of white space, a running
    exchange or a key not marked valid leave the store as it is. *)
Theorem chat_exchange_shows_reply (b : Browser) (stamps : Stamps) (profile_text : string)
    (analysis_text : option string) (inputMessage : string) (s : ChatState) :
  let history :=
    List.map (fun m => mkOpenAIMessage (api_role_of (role m)) (message_content m)) (messages s) in
  let outcome :=
    chatWithAssistant JSON_parse fetch b (JsMore.trim inputMessage) profile_text analysis_text
      history in
  let shown :=
    match outcome with
    | returned _ streamed => List.last streamed EmptyString
    | _ => apology
    end in
  (Js.trim_nonempty inputMessage = false \/ chat_isStreaming s = true
   \/ isKeyValid (useSettingsStore b) = false ->
   handleSendMessage JSON_parse fetch b stamps profile_text analysis_text inputMessage s = s)
  /\ (Js.trim_nonempty inputMessage = true -> chat_isStreaming s = false ->
      isKeyValid (useSettingsStore b) = true ->
      handleSendMessage JSON_parse fetch b stamps profile_text analysis_text inputMessage s
      = mkChatState (currentThreadId s)
          (messages s
           ++ [mkMessage (user_id stamps) user (JsMore.trim inputMessage) (user_time stamps) None;
               mkMessage (reply_id stamps) assistant shown (reply_time stamps) (Some true)])
          false)
  /\ (forall v streamed,
        outcome = returned v streamed -> streamed <> [] -> v = JStr shown).
Proof.
  intros history outcome shown. split_and!.
  - unfold handleSendMessage. intros [ -> | [ -> | -> ] ]; cbn.
    + reflexivity.
    + now rewrite orb_true_r.
    + now destruct (_ || _).
  - intros Hinput Hstreaming Hvalid. unfold handleSendMessage.
    rewrite Hinput, Hstreaming, Hvalid. cbn [negb orb].
    fold history. fold outcome. unfold shown.
    unfold addMessage, setStreaming. cbn [messages currentThreadId chat_isStreaming].
    rewrite <- List.app_assoc. cbn [app].
    change (messages s ++ [?a; ?m])%list with (messages s ++ [a] ++ [m])%list.
    rewrite List.app_assoc.
    destruct outcome as [v streamed| |].
    + rewrite updates_keep_last. cbn. now rewrite <- List.app_assoc.
    + unfold updateLastMessage. cbn [messages currentThreadId chat_isStreaming].
      rewrite replace_last_content_snoc. cbn. now rewrite <- List.app_assoc.
    + unfold updateLastMessage. cbn [messages currentThreadId chat_isStreaming].
      rewrite replace_last_content_snoc. cbn. now rewrite <- List.app_assoc.
  - intros v streamed Hout Hne. unfold shown. rewrite Hout.
    unfold outcome, chatWithAssistant in Hout.
    apply callOpenAI_returned in Hout as [->|Hv]; [contradiction|exact Hv].
Qed.

(** X19. A call is refused before any request is made when [getApiKey]
    returns nothing: after a key was saved to the persistent slot only, or
    after [clearApiKey], every call throws the key-not-found error,
    whatever the provider would answer. *)
Theorem call_without_readable_key (key : string) (now : nat) (b : Browser)
    (msgs : list OpenAIMessage) (stream : bool) :
  callOpenAI JSON_parse fetch (clearApiKey now b) msgs stream = threw key_not_found
  /\ (sessionStorage b !! "openai-api-key" = None ->
      callOpenAI JSON_parse fetch (setApiKey key true now b) msgs stream = threw key_not_found).
Proof.
  split.
  - unfold callOpenAI. rewrite CredentialFacts.getApiKey_session. cbn.
    now rewrite lookup_delete_eq.
  - intros Hnone. unfold callOpenAI.
    now rewrite CredentialFacts.getApiKey_session, CredentialFacts.setApiKey_persistent_slot, Hnone.
Qed.

End Exchange.

(** X20. [handleSaveApiKey] saves nothing for a key made of white space;
    another key is saved as typed, not trimmed, and for the session way of
    storing [getApiKey] then returns it, while for the encrypted-local way
    [getApiKey] returns what it returned before. *)
Theorem save_api_key_as_typed (tempApiKey : string) (now : nat) (b : Browser) :
  (Js.trim_nonempty tempApiKey = false ->
   forall storageType, handleSaveApiKey tempApiKey storageType now b = b)
  /\ (Js.trim_nonempty tempApiKey = true ->
      getApiKey (handleSaveApiKey tempApiKey session now b) = Some tempApiKey
      /\ getApiKey (handleSaveApiKey tempApiKey none now b) = Some tempApiKey
      /\ getApiKey (handleSaveApiKey tempApiKey encrypted_local now b) = getApiKey b).
Proof.
  unfold handleSaveApiKey. split.
  - now intros ->.
  - intros Hkey. rewrite Hkey. cbn [negb].
    assert (Hne : Js.truthy_string tempApiKey = true) by now destruct tempApiKey.
    rewrite !CredentialFacts.getApiKey_session.
    rewrite CredentialFacts.setApiKey_persistent_slot, !CredentialFacts.setApiKey_session_slot,
      !lookup_insert_eq, Hne.
    done.
Qed.

End ChatFacts.

(** ** Facts about saving the profile and running an analysis *)

Module SavingFacts.
Import Json Db Stores Queries Pages AnalysisPage Saving Analysing.

Lemma rows_update {A : Type} (key : nat) (changes : A -> A) (t : Table A) :
  rows (update key changes t) = alter changes key (rows t).
Proof. reflexivity. Qed.

(** The profile of the user is updated in place or added; either way it is
    afterwards the first profile of the user, no other row has changed,
    and a table with at most one profile per user stays one. *)
Lemma upsert_spec {A : Type} (index : A -> nat) (p : A) (t : Table A) :
  keys_below t ->
  exists t' k,
    upsert index (index p) p t = Some t'
    /\ upserted index p k t t'
    /\ (one_profile_per_user index t -> one_profile_per_user index t').
Proof.
  intros Hbelow. unfold upsert.
  destruct (head (where_equals index (index p) t)) as [[k0 q]|] eqn:Hhead.
  - apply QueryFacts.head_where_equals in Hhead as (Hq & Hindex & Hleast).
    exists (update k0 (fun _ => p) t), k0. cbn [fst].
    assert (Hk0 : rows (update k0 (fun _ : A => p) t) !! k0 = Some p).
    { rewrite rows_update, lookup_alter_eq, Hq. reflexivity. }
    assert (Hother : forall k', k' <> k0 ->
              rows (update k0 (fun _ : A => p) t) !! k' = rows t !! k').
    { intros k' Hne. rewrite rows_update. now apply lookup_alter_ne. }
    split; [reflexivity|]. split; [split_and!|].
    + exact Hk0.
    + apply QueryFacts.head_where_equals. split_and!; [exact Hk0|reflexivity|].
      intros k' r' Hr' Hi'. destruct (decide (k' = k0)) as [->|Hne]; [lia|].
      rewrite Hother in Hr' by done. now apply (Hleast k' r').
    + exact Hother.
    + intros q' Hq'. rewrite Hq in Hq'. now injection Hq' as <-.
    + intros Hone k k' r r' Hr Hr' Heq.
      assert (Hback : forall j x, rows (update k0 (fun _ : A => p) t) !! j = Some x ->
                exists y, rows t !! j = Some y /\ index y = index x).
      { intros j x Hx. destruct (decide (j = k0)) as [->|Hne].
        - rewrite Hk0 in Hx. injection Hx as <-. now exists q.
        - rewrite Hother in Hx by done. now exists x. }
      destruct (Hback k r Hr) as (y & Hy & Hiy).
      destruct (Hback k' r' Hr') as (y' & Hy' & Hiy').
      apply (Hone k k' y y' Hy Hy'). congruence.
  - rewrite QueryFacts.head_where_equals_None in Hhead.
    rewrite (DbFacts.add_generated p t Hbelow).
    assert (Hfree : rows t !! keygen t = None).
    { apply eq_None_not_Some. intros Hk. apply Hbelow in Hk. lia. }
    eexists _, (keygen t). split; [reflexivity|]. cbn [rows].
    split; [split_and!|].
    + apply lookup_insert_eq.
    + apply QueryFacts.head_where_equals. cbn [rows]. split_and!;
        [apply lookup_insert_eq|reflexivity|].
      intros k' r' Hr' Hi'. destruct (decide (k' = keygen t)) as [->|Hne]; [lia|].
      rewrite lookup_insert_ne in Hr' by done. now apply Hhead in Hr'.
    + intros k' Hne. now apply lookup_insert_ne.
    + intros q Hq. congruence.
    + intros Hone k k' r r' Hr Hr' Heq. cbn [rows] in Hr, Hr'.
      destruct (decide (k = keygen t)) as [->|Hk], (decide (k' = keygen t)) as [->|Hk'];
        try reflexivity.
      * rewrite lookup_insert_eq in Hr. injection Hr as <-.
        rewrite lookup_insert_ne in Hr' by done. apply Hhead in Hr'. congruence.
      * rewrite lookup_insert_eq in Hr'. injection Hr' as <-.
        rewrite lookup_insert_ne in Hr by done. apply Hhead in Hr. congruence.
      * rewrite lookup_insert_ne in Hr, Hr' by done. now apply (Hone k k' r r').
Qed.

(** X21. [saveProfile] writes the profile built from the form to the table
    of the user's role only: over the first profile the user has there, or
    as a new row when the user has none.  Afterwards that profile is the
    first profile of the user and the one the profile store holds, every
    other row is as it was, and a table with at most one profile per user
    still has at most one. *)
Theorem save_profile_upserts (values : FormValues) (f : Form) (now : nat) (auth : AuthState)
    (db : SkillLeadDB) (ps : ProfileState) (n : nat) (u : LocalUser) :
  currentUser auth = Some (Some (S n), u) ->
  keys_below (studentProfiles db) -> keys_below (professionalProfiles db) ->
  match user_role u with
  | student =>
      profile (saveProfile values f now auth (db, ps)).2
      = Some (inl (studentProfile (S n) values f now))
      /\ (exists k,
            upserted student_userId (studentProfile (S n) values f now) k (studentProfiles db)
              (studentProfiles (saveProfile values f now auth (db, ps)).1))
      /\ (one_profile_per_user student_userId (studentProfiles db) ->
          one_profile_per_user student_userId
            (studentProfiles (saveProfile values f now auth (db, ps)).1))
      /\ professionalProfiles (saveProfile values f now auth (db, ps)).1 = professionalProfiles db
  | professional =>
      profile (saveProfile values f now auth (db, ps)).2
      = Some (inr (professionalProfile (S n) values f now))
      /\ (exists k,
            upserted professional_userId (professionalProfile (S n) values f now) k
              (professionalProfiles db)
              (professionalProfiles (saveProfile values f now auth (db, ps)).1))
      /\ (one_profile_per_user professional_userId (professionalProfiles db) ->
          one_profile_per_user professional_userId
            (professionalProfiles (saveProfile values f now auth (db, ps)).1))
      /\ studentProfiles (saveProfile values f now auth (db, ps)).1 = studentProfiles db
  end.
Proof.
  intros Huser Hs Hp. unfold saveProfile. rewrite Huser. cbn [fst snd].
  destruct (user_role u).
  - destruct (upsert_spec student_userId (studentProfile (S n) values f now) _ Hs)
      as (t' & k & Hup & Hspec & Hone).
    cbn [student_userId studentProfile] in Hup. rewrite Hup. cbn.
    split_and!; [reflexivity|now exists k|exact Hone|reflexivity].
  - destruct (upsert_spec professional_userId (professionalProfile (S n) values f now) _ Hp)
      as (t' & k & Hup & Hspec & Hone).
    cbn [professional_userId professionalProfile] in Hup. rewrite Hup. cbn.
    split_and!; [reflexivity|now exists k|exact Hone|reflexivity].
Qed.

Lemma keys_below_empty {A : Type} : keys_below (@empty_table A).
Proof. intros k [r Hr]. cbn in Hr. now rewrite lookup_empty in Hr. Qed.

Lemma keys_below_one_analysis : keys_below (analyses Samples.one_analysis).
Proof.
  intros k [r Hr]. cbn in Hr.
  destruct (decide (k = 1)) as [->|Hne]; [cbn; lia|].
  rewrite lookup_singleton_ne in Hr; done.
Qed.

Lemma save_profile_upserts_witness :
  profile MoreSamples.guest_profile
  = Some (inl (studentProfile 7 MoreSamples.no_values initial_form 150))
  /\ (exists k,
        upserted student_userId (studentProfile 7 MoreSamples.no_values initial_form 150) k
          (studentProfiles Samples.one_analysis)
          (studentProfiles
             (saveProfile MoreSamples.no_values initial_form 150 MoreSamples.guest_signed_in
                (Samples.one_analysis, initial_profile)).1))
  /\ (one_profile_per_user student_userId (studentProfiles Samples.one_analysis) ->
      one_profile_per_user student_userId
        (studentProfiles
           (saveProfile MoreSamples.no_values initial_form 150 MoreSamples.guest_signed_in
              (Samples.one_analysis, initial_profile)).1))
  /\ professionalProfiles
       (saveProfile MoreSamples.no_values initial_form 150 MoreSamples.guest_signed_in
          (Samples.one_analysis, initial_profile)).1
     = professionalProfiles Samples.one_analysis.
Proof.
  apply (save_profile_upserts MoreSamples.no_values initial_form 150 MoreSamples.guest_signed_in
           Samples.one_analysis initial_profile 6 Samples.guest).
  - reflexivity.
  - apply keys_below_empty.
  - apply keys_below_empty.
Defined.

(** X22. [startAnalysis] writes nothing without a profile, a profile type
    or a signed-in user with an id, and nothing when the generation of the
    analysis throws or gives [null].  In demo mode, or with a key that is
    not marked valid, the record it writes and shows is the one built from
    the sample data [mockAnalysisData], whatever the generation would
    give; otherwise it is the one built from the properties of the
    generated value. *)
Theorem start_analysis_guards (ps : ProfileState) (auth : AuthState)
    (useDemoMode isKeyValid : bool) (generated : option json) (f : Fault) (now : nat)
    (st : SkillLeadDB * option CareerAnalysis) :
  (profile ps = None \/ profileType ps = None \/ currentUser auth = None
   \/ (exists u, currentUser auth = Some (None, u) \/ currentUser auth = Some (Some 0, u)) ->
   startAnalysis ps auth useDemoMode isKeyValid generated f now st = st)
  /\ (useDemoMode = false -> isKeyValid = true ->
      generated = None \/ generated = Some JNull ->
      startAnalysis ps auth useDemoMode isKeyValid generated f now st = st)
  /\ (forall p type n u,
        profile ps = Some p -> profileType ps = Some type ->
        currentUser auth = Some (Some (S n), u) ->
        keys_below (analyses st.1) ->
        (useDemoMode || negb isKeyValid = true ->
         startAnalysis ps auth useDemoMode isKeyValid generated no_fault now st
         = (recorded (S n) mockAnalysisData now st.1,
            Some (analysisRecord (S n) mockAnalysisData now))
         /\ interestsConfirmed (analysisRecord (S n) mockAnalysisData now) = JBool true
         /\ clarifications (analysisRecord (S n) mockAnalysisData now) = JArr []
         /\ opt_get "title" (opt_get "A" (plans (analysisRecord (S n) mockAnalysisData now)))
            = Some (JStr "Full-Stack Developer"))
        /\ (forall v result,
              useDemoMode = false -> isKeyValid = true ->
              generated = Some v -> result_of v = Some result ->
              startAnalysis ps auth useDemoMode isKeyValid generated no_fault now st
              = (recorded (S n) result now st.1, Some (analysisRecord (S n) result now)))).
Proof.
  unfold startAnalysis. split_and!.
  - intros [ -> | [ -> | [ -> | (u & [ -> | -> ]) ] ] ]; try reflexivity;
      destruct (profile ps); try reflexivity; now destruct (currentUser auth) as [[[[|?]|] ?]|].
  - intros -> -> Hgen.
    assert (Hnone : generated ≫= result_of = None) by now destruct Hgen as [ -> | -> ].
    cbn [orb negb]. rewrite Hnone.
    destruct (profile ps); [|reflexivity].
    destruct (currentUser auth) as [[[[|?]|] ?]|]; try reflexivity.
    now destruct (profileType ps).
  - intros p type n u -> -> -> Hbelow. split.
    + intros ->. unfold save.
      rewrite (AnalysisFacts.save_states_fulfilled _ _ _ _ Hbelow).
      split_and!; reflexivity.
    + intros v result -> -> -> Hv. cbn [orb negb mbind option_bind]. rewrite Hv.
      unfold save. now rewrite (AnalysisFacts.save_states_fulfilled _ _ _ _ Hbelow).
Qed.

(** X23. When [startAnalysis] has a profile, a user and a result and meets
    no storage failure, the record built from the result is in the
    analysis store and in the table, at a new id and with [latest = true],
    and the rows the table had are as they were; yet [getLatestAnalysis]
    returns nothing for the user, so the analysis the page shows is not
    one that helper gives back.  When the modify or the add is rejected,
    the database and the analysis store are as they were. *)
Theorem start_analysis_writes_one_row (ps : ProfileState) (auth : AuthState)
    (useDemoMode isKeyValid : bool) (generated : option json) (now : nat)
    (st : SkillLeadDB * option CareerAnalysis)
    (p : StudentProfile + ProfessionalProfile) (type : Role) (n : nat) (u : LocalUser)
    (result : AnalysisResult) :
  profile ps = Some p -> profileType ps = Some type ->
  currentUser auth = Some (Some (S n), u) ->
  (if useDemoMode || negb isKeyValid then Some mockAnalysisData else generated ≫= result_of)
  = Some result ->
  keys_below (analyses st.1) ->
  (startAnalysis ps auth useDemoMode isKeyValid generated no_fault now st).2
  = Some (analysisRecord (S n) result now)
  /\ rows (analyses (startAnalysis ps auth useDemoMode isKeyValid generated no_fault now st).1)
     = <[keygen (analyses st.1) := analysisRecord (S n) result now]> (rows (analyses st.1))
  /\ rows (analyses st.1) !! keygen (analyses st.1) = None
  /\ latest (analysisRecord (S n) result now) = true
  /\ getLatestAnalysis (S n)
       (startAnalysis ps auth useDemoMode isKeyValid generated no_fault now st).1
     = None
  /\ startAnalysis ps auth useDemoMode isKeyValid generated add_fails now st = st
  /\ startAnalysis ps auth useDemoMode isKeyValid generated modify_fails now st = st.
Proof.
  intros Hp Htype Huser Hresult Hbelow. unfold startAnalysis.
  rewrite Hp, Htype, Huser, Hresult. unfold save.
  rewrite (AnalysisFacts.save_states_fulfilled _ _ _ _ Hbelow).
  cbn [List.last fst snd save_states]. split_and!.
  - reflexivity.
  - apply AnalysisFacts.rows_recorded.
  - now apply AnalysisFacts.next_key_free.
  - reflexivity.
  - apply AnalysisMore.latest_is_never_found.
  - rewrite AnalysisFacts.mark_previous_same.
    destruct (add_new (analysisRecord (S n) result now) st.1); now destruct st.
  - now destruct st.
Qed.

Lemma start_analysis_writes_one_row_witness :
  (startAnalysis MoreSamples.guest_profile MoreSamples.guest_signed_in true false None
     no_fault 200 (Samples.one_analysis, None)).2
  = Some (analysisRecord 7 mockAnalysisData 200)
  /\ rows (analyses
             (startAnalysis MoreSamples.guest_profile MoreSamples.guest_signed_in true false None
                no_fault 200 (Samples.one_analysis, None)).1)
     = <[keygen (analyses Samples.one_analysis) := analysisRecord 7 mockAnalysisData 200]>
         (rows (analyses Samples.one_analysis))
  /\ rows (analyses Samples.one_analysis) !! keygen (analyses Samples.one_analysis) = None
  /\ latest (analysisRecord 7 mockAnalysisData 200) = true
  /\ getLatestAnalysis 7
       (startAnalysis MoreSamples.guest_profile MoreSamples.guest_signed_in true false None
          no_fault 200 (Samples.one_analysis, None)).1
     = None
  /\ startAnalysis MoreSamples.guest_profile MoreSamples.guest_signed_in true false None
       add_fails 200 (Samples.one_analysis, None)
     = (Samples.one_analysis, None)
  /\ startAnalysis MoreSamples.guest_profile MoreSamples.guest_signed_in true false None
       modify_fails 200 (Samples.one_analysis, None)
     = (Samples.one_analysis, None).
Proof.
  apply (start_analysis_writes_one_row MoreSamples.guest_profile
           MoreSamples.guest_signed_in true false None 200 (Samples.one_analysis, None)
           (inl (studentProfile 7 MoreSamples.no_values initial_form 150)) student 6
           Samples.guest mockAnalysisData).
  - reflexivity.
  - reflexivity.
  - reflexivity.
  - reflexivity.
  - apply keys_below_one_analysis.
Defined.

End SavingFacts.
